(** * gen-schema-views: the command-line driver of the Firestore-to-BigQuery
    schema view generator

    A shallow embedding of [scripts/gen-schema-view/src/index.ts]: input
    validation for the interactive prompts, configuration parsing, the
    [run] loop over the schemas and the top-level promise handlers.  The
    schema compiler itself ([./schema]) is imported by that file; the parts
    of it that the properties below talk about are modelled from the
    specification and marked as such. *)

From Stdlib Require Import ZArith NArith Ascii String List Bool Lia.
From stdpp Require Import base option numbers list.

Set Default Proof Using "Type".
Open Scope Z_scope.

(* ================================================================== *)
(** ** JavaScript strings *)
(* ================================================================== *)

Module Js.

(** A JavaScript string is a sequence of UTF-16 code units. *)
Definition jsstring := list N.

(** A literal of the source, written in ASCII. *)
Definition lit (s : string) : jsstring :=
  map N_of_ascii (list_ascii_of_string s).
Arguments lit : simpl never.

Definition eqb (a b : jsstring) : bool := bool_decide (a = b).

(** ECMAScript [WhiteSpace] and [LineTerminator] code points, the ones
    [String.prototype.trim] strips. *)
Definition is_white_space (c : N) : bool :=
  ((c =? 9) || (c =? 10) || (c =? 11) || (c =? 12) || (c =? 13) || (c =? 32)
   || (c =? 160) || (c =? 5760)
   || ((8192 <=? c) && (c <=? 8202))
   || (c =? 8232) || (c =? 8233) || (c =? 8239) || (c =? 8287)
   || (c =? 12288) || (c =? 65279))%N.

Fixpoint trimStart (s : jsstring) : jsstring :=
  match s with
  | c :: s' => if is_white_space c then trimStart s' else s
  | [] => []
  end.

Definition trimEnd (s : jsstring) : jsstring := rev (trimStart (rev s)).

Definition trim (s : jsstring) : jsstring := trimEnd (trimStart s).

(** [s.split(",")]: the pieces between the separators; never empty. *)
Fixpoint split (sep : N) (s : jsstring) : list jsstring :=
  match s with
  | [] => [[]]
  | c :: s' =>
      if (c =? sep)%N then [] :: split sep s'
      else match split sep s' with
           | piece :: pieces => (c :: piece) :: pieces
           | [] => [[c]]
           end
  end.

Definition join (sep : jsstring) (parts : list jsstring) : jsstring :=
  match parts with
  | [] => []
  | p :: ps => p ++ concat (map (fun q => sep ++ q) ps)
  end.

(** The values a prompt hands to its validator: a string, or nothing. *)
Inductive value :=
| Undefined
| Null
| Str (s : jsstring).

(** [!!v] *)
Definition truthy (v : value) : bool :=
  match v with
  | Str (_ :: _) => true
  | _ => false
  end.

End Js.

Import Js.
Abbreviation jsstring := Js.jsstring.

(* ================================================================== *)
(** ** Regular expressions *)
(* ================================================================== *)

Module RegExp.

(** The three patterns of the source are anchored at both ends and carry
    no flag, so [s.match(/^r$/)] succeeds exactly when the whole of [s] is
    in the language of [r].  Membership is decided with derivatives. *)
Inductive re :=
| Void
| Eps
| Class (p : N -> bool)
| Seq (r1 r2 : re)
| Alt (r1 r2 : re)
| Star (r : re).

Fixpoint nullable (r : re) : bool :=
  match r with
  | Void => false
  | Eps => true
  | Class _ => false
  | Seq r1 r2 => nullable r1 && nullable r2
  | Alt r1 r2 => nullable r1 || nullable r2
  | Star _ => true
  end.

Fixpoint deriv (c : N) (r : re) : re :=
  match r with
  | Void => Void
  | Eps => Void
  | Class p => if p c then Eps else Void
  | Seq r1 r2 =>
      if nullable r1 then Alt (Seq (deriv c r1) r2) (deriv c r2)
      else Seq (deriv c r1) r2
  | Alt r1 r2 => Alt (deriv c r1) (deriv c r2)
  | Star r' => Seq (deriv c r') (Star r')
  end.

Fixpoint whole (r : re) (s : jsstring) : bool :=
  match s with
  | [] => nullable r
  | c :: s' => whole (deriv c r) s'
  end.

(** [r+] *)
Definition plus (r : re) : re := Seq r (Star r).

(** [r{0,n}] *)
Fixpoint upto (n : nat) (r : re) : re :=
  match n with
  | O => Eps
  | S n' => Alt Eps (Seq r (upto n' r))
  end.

(** A regular expression object, seen through [String.prototype.match]:
    whether [value.match(regex)] is a match (truthy) or [null]. *)
Definition t := jsstring -> bool.

(** [/^r$/] *)
Definition anchored (r : re) : t := whole r.

Definition range (lo hi : string) (c : N) : bool :=
  match lit lo, lit hi with
  | [l], [h] => ((l <=? c) && (c <=? h))%N
  | _, _ => false
  end.

Definition char (x : string) (c : N) : bool :=
  match lit x with
  | [k] => (c =? k)%N
  | _ => false
  end.

End RegExp.

(* ================================================================== *)
(** ** Input validation (index.ts, lines 27-39) *)
(* ================================================================== *)

(** [/^[a-zA-Z0-9_]+$/] *)
Definition BIGQUERY_VALID_CHARACTERS : RegExp.t :=
  RegExp.anchored
    (RegExp.plus
       (RegExp.Class (fun c =>
          RegExp.range "a" "z" c || RegExp.range "A" "Z" c
          || RegExp.range "0" "9" c || RegExp.char "_" c))).

(** [/^[^\/]+$/] *)
Definition FIRESTORE_VALID_CHARACTERS : RegExp.t :=
  RegExp.anchored
    (RegExp.plus (RegExp.Class (fun c => negb (RegExp.char "/" c)))).

(** [/^[a-z][a-z0-9-]{0,29}$/] *)
Definition GCP_PROJECT_VALID_CHARACTERS : RegExp.t :=
  RegExp.anchored
    (RegExp.Seq
       (RegExp.Class (RegExp.range "a" "z"))
       (RegExp.upto 29
          (RegExp.Class (fun c =>
             RegExp.range "a" "z" c || RegExp.range "0" "9" c
             || RegExp.char "-" c)))).

(** What a validator answers: [true], or the message to show. *)
Inductive Validation :=
| Valid
| Complaint (message : jsstring).

Definition validateInput (value : Js.value) (name : jsstring)
    (regex : RegExp.t) : Validation :=
  match value with
  | Str s =>
      if negb (truthy value) || Js.eqb s [] || Js.eqb (trim s) [] then
        Complaint (lit "Please supply a " ++ name)
      else if negb (regex s) then
        Complaint (lit "The " ++ name ++ lit " must only contain letters or spaces")
      else Valid
  | Undefined | Null =>
      (* [!value] holds and the other disjuncts are not evaluated *)
      Complaint (lit "Please supply a " ++ name)
  end.

(* ================================================================== *)
(** ** The schema data model *)
(* ================================================================== *)

(** Modelled from the spec: the types [FirestoreSchema], [Field] and
    [FieldType] of the module [./schema], which [index.ts] imports
    (section 3 of the specification).  [MAP] carries its nested fields,
    [ARRAY] its element field; [UNRECOGNIZED] stands for a type tag that
    has no resolution rule. *)
Inductive FieldType :=
| STRING
| NUMBER
| BOOLEAN
| TIMESTAMP
| GEOPOINT
| REFERENCE
| NULL
| MAP (nested : list Field)
| ARRAY (element : Field)
| STRINGIFIED_MAP
| UNRECOGNIZED (tag : jsstring)
with Field :=
| mkField (name : jsstring) (type : FieldType) (description : option jsstring).

Definition field_name (f : Field) : jsstring :=
  match f with mkField n _ _ => n end.

Definition field_type (f : Field) : FieldType :=
  match f with mkField _ t _ => t end.

Record FirestoreSchema := { fields : list Field }.

(* ================================================================== *)
(** ** The command line (index.ts, lines 47-127) *)
(* ================================================================== *)

(** The options of [program] after [program.parse(process.argv)]: a flag
    that was not given is [undefined]; [--schema-files] collects into a
    list that starts empty; [--non-interactive] defaults to [false]. *)
Record Command := {
  nonInteractive : bool;
  project : option jsstring;
  bigQueryProject : option jsstring;
  dataset : option jsstring;
  tableNamePrefix_flag : option jsstring;
  schemaFiles : list jsstring;
}.

(** [function collect(value, previous)] *)
Definition collect (value : jsstring) (previous : list jsstring) : list jsstring :=
  previous ++ [value].

Record Question := {
  q_message : jsstring;
  q_name : jsstring;
  q_default : Js.value;
  q_validate : option (Js.value -> Validation);
}.

(** [const questions], given [process.env.PROJECT_ID]. *)
Definition questions (PROJECT_ID : Js.value) : list Question :=
  [ {| q_message := lit "What is your Firebase project ID?";
       q_name := lit "project";
       q_default := PROJECT_ID;
       q_validate := Some (fun value =>
         validateInput value (lit "project ID") FIRESTORE_VALID_CHARACTERS) |};
    {| q_message := lit "What is your Google Cloud Project ID for BigQuery? (can be the same as the Firebase project ID)";
       q_name := lit "bigQueryProject";
       q_default := PROJECT_ID;
       q_validate := Some (fun value =>
         validateInput value (lit "BigQuery project ID") GCP_PROJECT_VALID_CHARACTERS) |};
    {| q_message := lit "What is the ID of the BigQuery dataset the raw changelog lives in? (The dataset and the raw changelog must already exist!)";
       q_name := lit "dataset";
       q_default := Undefined;
       q_validate := Some (fun value =>
         validateInput value (lit "dataset ID") BIGQUERY_VALID_CHARACTERS) |};
    {| q_message := lit "What is the name of the Cloud Firestore collection for which you want to generate a schema view?";
       q_name := lit "tableNamePrefix";
       q_default := Undefined;
       q_validate := Some (fun value =>
         validateInput value (lit "table name prefix") BIGQUERY_VALID_CHARACTERS) |};
    {| q_message := lit "Where should this script look for schema definitions? (Enter a comma-separated list of, optionally globbed, paths to files or directories).";
       q_name := lit "schemaFiles";
       q_default := Undefined;
       q_validate := None |} ].

(** What [inquirer.prompt(questions)] resolves to. *)
Record Answers := {
  a_project : jsstring;
  a_bigQueryProject : jsstring;
  a_dataset : jsstring;
  a_tableNamePrefix : jsstring;
  a_schemaFiles : jsstring;
}.

(** An object used as a mapping from schema name to schema: its own
    enumerable properties in enumeration order.  [for ... in] and
    [Object.keys] walk them in that order. *)
Definition Schemas := list (jsstring * FirestoreSchema).

Definition Object_keys (o : Schemas) : list jsstring := map fst o.

(** [o[key]]: the value of the property, [None] for [undefined]. *)
Fixpoint property (o : Schemas) (key : jsstring) : option FirestoreSchema :=
  match o with
  | [] => None
  | (k, v) :: o' => if Js.eqb k key then Some v else property o' key
  end.

(** An object has each key once. *)
Definition is_object (o : Schemas) : Prop := NoDup (Object_keys o).

Record CliConfig := {
  projectId : jsstring;
  bigQueryProjectId : jsstring;
  datasetId : jsstring;
  tableNamePrefix : jsstring;
  schemas : Schemas;
}.

(* ================================================================== *)
(** ** Effects *)
(* ================================================================== *)

(** A thrown or rejected value, through the two expressions that the
    script evaluates on it: [JSON.stringify(error)] and [error.message].
    Each gives a value or throws in turn: [JSON.stringify] gives a text, or
    [undefined] for a value without one, and throws a [TypeError] on a
    circular structure; reading [message] throws a [TypeError] when the
    value is [undefined] or [null]. *)
Inductive JsError :=
| thrown (stringified message_property : Completion)
with Completion :=
| Gives (v : Js.value)
| Throws (e : JsError).

(** [JSON.stringify(error)] *)
Definition json (error : JsError) : Completion :=
  match error with thrown stringified _ => stringified end.

(** [error.message] *)
Definition message (error : JsError) : Completion :=
  match error with thrown _ message_property => message_property end.

(** An [Error] object with a message: it has no enumerable property of
    its own, so its JSON text is the empty object. *)
Definition Error (text : jsstring) : JsError :=
  thrown (Gives (Str (lit "{}"))) (Gives (Str text)).

(** What [console.log] and [console.error] print for a value. *)
Definition format (v : Js.value) : jsstring :=
  match v with
  | Undefined => lit "undefined"
  | Null => lit "null"
  | Str s => s
  end.

(** The object [new FirestoreBigQuerySchemaViewFactory(bigQueryProjectId)]. *)
Record ViewFactory := { factory_project : jsstring }.

(** One call [viewFactory.initializeSchemaViewResources(datasetId,
    tableNamePrefix, schemaName, schema)]. *)
Record Call := {
  c_factory : ViewFactory;
  c_datasetId : jsstring;
  c_tableNamePrefix : jsstring;
  c_schemaName : jsstring;
  c_schema : option FirestoreSchema;
}.

(** What the process does to the outside, in order.  An awaited factory
    call is recorded with the way it settled: [None] when it resolved,
    [Some e] when it rejected with [e]. *)
Inductive Event :=
| ProgramParse
| OutputHelp
| InquirerPrompt (qs : list Question)
| ReadSchemas (files : list jsstring)
| SetEnv (name value : jsstring)
| InitializeApp (databaseURL : jsstring)
| ConsoleLog (line : jsstring)
| ConsoleError (line : jsstring)
| NewViewFactory (bigQueryProjectId : jsstring)
| InitializeSchemaViewResources (c : Call) (settled : option JsError)
| ProcessExit (code : option Z).

(** The collaborators of the script: what commander parsed, what the user
    answers, the schema loader, the Firebase apps that exist when the
    script starts, and the view factory, whose answer to a call may depend
    on the calls made before it. *)
Record Collaborators := {
  program : Command;
  PROJECT_ID : Js.value;
  prompt : Answers;
  readSchemas : list jsstring -> JsError + Schemas;
  firebase_apps : nat;
  factory_settles : list Call -> Call -> option JsError;
}.

Inductive Outcome (A : Type) :=
| Returned (a : A)
| Thrown (e : JsError)
| Exited (status : Z).
Arguments Returned {A} a.
Arguments Thrown {A} e.
Arguments Exited {A} status.

Record Result (A : Type) := {
  trace : list Event;
  outcome : Outcome A;
}.
Arguments trace {A} r.
Arguments outcome {A} r.

(** A computation reads the events that happened before it and answers
    with the events it adds and the way it ends. *)
Definition M (A : Type) : Type := list Event -> Result A.

Definition ret {A} (a : A) : M A :=
  fun _ => {| trace := []; outcome := Returned a |}.

Definition bind {A B} (m : M A) (k : A -> M B) : M B :=
  fun past =>
    let r := m past in
    match outcome r with
    | Returned a =>
        let r' := k a (past ++ trace r) in
        {| trace := trace r ++ trace r'; outcome := outcome r' |}
    | Thrown e => {| trace := trace r; outcome := Thrown e |}
    | Exited status => {| trace := trace r; outcome := Exited status |}
    end.

(** [promise.catch(handler)] *)
Definition catch {A} (m : M A) (handler : JsError -> M A) : M A :=
  fun past =>
    let r := m past in
    match outcome r with
    | Thrown e =>
        let r' := handler e (past ++ trace r) in
        {| trace := trace r ++ trace r'; outcome := outcome r' |}
    | _ => r
    end.

#[global] Instance M_ret : MRet M := @ret.
#[global] Instance M_bind : MBind M := fun A B k m => bind m k.

Definition emit (e : Event) : M unit :=
  fun _ => {| trace := [e]; outcome := Returned tt |}.

Definition throw {A} (e : JsError) : M A :=
  fun _ => {| trace := []; outcome := Thrown e |}.

(** [process.exit(code)]: the process ends there.  [process.exitCode] is
    never assigned, so the status is [code], or 0 when none is given. *)
Definition process_exit {A} (code : option Z) : M A :=
  fun _ => {| trace := [ProcessExit code];
              outcome := Exited (match code with Some c => c | None => 0 end) |}.

Definition console_log (line : jsstring) : M unit := emit (ConsoleLog line).
Definition console_error (line : jsstring) : M unit := emit (ConsoleError line).

(** The evaluation of an expression that may throw. *)
Definition evaluate (c : Completion) : M Js.value :=
  match c with
  | Gives v => ret v
  | Throws e => throw e
  end.

(** The factory calls among some events, oldest first. *)
Definition issued_calls (t : list Event) : list Call :=
  omap (fun e => match e with
                 | InitializeSchemaViewResources c _ => Some c
                 | _ => None
                 end) t.

(** The rejections among some events. *)
Definition rejections (t : list Event) : list (Call * JsError) :=
  omap (fun e => match e with
                 | InitializeSchemaViewResources c (Some err) => Some (c, err)
                 | _ => None
                 end) t.

(** The factories constructed among some events. *)
Definition constructed_factories (t : list Event) : list jsstring :=
  omap (fun e => match e with
                 | NewViewFactory p => Some p
                 | _ => None
                 end) t.

(** How many times [firebase.initializeApp] was called. *)
Fixpoint initialized_apps (t : list Event) : nat :=
  match t with
  | [] => O
  | InitializeApp _ :: t' => S (initialized_apps t')
  | _ :: t' => initialized_apps t'
  end.

(** [for (const key in o) body(key)] with an awaited body. *)
Fixpoint for_in (keys : list jsstring) (body : jsstring -> M unit) : M unit :=
  match keys with
  | [] => ret tt
  | key :: keys' => body key ;; for_in keys' body
  end.

(* ================================================================== *)
(** ** The script (index.ts, lines 129-209) *)
(* ================================================================== *)

Section Script.

Variable env : Collaborators.

(** [firebase.apps.length] *)
Definition firebase_apps_length : M nat :=
  fun past => {| trace := []; outcome := Returned (firebase_apps env + initialized_apps past)%nat |}.

Definition call_readSchemas (files : list jsstring) : M Schemas :=
  emit (ReadSchemas files) ;;
  match readSchemas env files with
  | inr s => ret s
  | inl e => throw e
  end.

Definition new_FirestoreBigQuerySchemaViewFactory (bigQueryProjectId : jsstring)
  : M ViewFactory :=
  emit (NewViewFactory bigQueryProjectId) ;;
  ret {| factory_project := bigQueryProjectId |}.

(** [await viewFactory.initializeSchemaViewResources(...)] *)
Definition initializeSchemaViewResources (viewFactory : ViewFactory)
    (datasetId tableNamePrefix schemaName : jsstring)
    (schema : option FirestoreSchema) : M unit :=
  fun past =>
    let c := {| c_factory := viewFactory; c_datasetId := datasetId;
                c_tableNamePrefix := tableNamePrefix;
                c_schemaName := schemaName; c_schema := schema |} in
    let settled := factory_settles env (issued_calls past) c in
    {| trace := [InitializeSchemaViewResources c settled];
       outcome := match settled with
                  | None => Returned tt
                  | Some e => Thrown e
                  end |}.

Definition parseConfig : M CliConfig :=
  emit ProgramParse ;;
  if nonInteractive (program env) then
    match project (program env), bigQueryProject (program env),
          dataset (program env), tableNamePrefix_flag (program env),
          schemaFiles (program env) with
    | Some p, Some b, Some d, Some t, (_ :: _) as files =>
        s ← call_readSchemas files;
        ret {| projectId := p; bigQueryProjectId := b; datasetId := d;
               tableNamePrefix := t; schemas := s |}
    | _, _, _, _, _ =>
        emit OutputHelp ;;
        process_exit (Some 1)
    end
  else
    emit (InquirerPrompt (questions (PROJECT_ID env))) ;;
    let a := prompt env in
    s ← call_readSchemas (map trim (split 44%N (a_schemaFiles a)));
    ret {| projectId := a_project a; bigQueryProjectId := a_bigQueryProject a;
           datasetId := a_dataset a; tableNamePrefix := a_tableNamePrefix a;
           schemas := s |}.

(** The body of [run] once [parseConfig] has resolved. *)
Definition run_config (config : CliConfig) : M Z :=
  emit (SetEnv (lit "PROJECT_ID") (projectId config)) ;;
  emit (SetEnv (lit "GOOGLE_CLOUD_PROJECT") (bigQueryProjectId config)) ;;
  apps ← firebase_apps_length;
  (if (apps =? 0)%nat then
     emit (InitializeApp (lit "https://" ++ projectId config ++ lit ".firebaseio.com"))
   else ret tt) ;;
  (if (length (Object_keys (schemas config)) =? 0)%nat then
     console_log (lit "No schema files found!")
   else ret tt) ;;
  viewFactory ← new_FirestoreBigQuerySchemaViewFactory (bigQueryProjectId config);
  for_in (Object_keys (schemas config)) (fun schemaName =>
    initializeSchemaViewResources viewFactory (datasetId config)
      (tableNamePrefix config) schemaName
      (property (schemas config) schemaName)) ;;
  ret 0.

Definition run : M Z :=
  config ← parseConfig;
  run_config config.

(** [run().then(...).catch(...)] *)
Definition main : M unit :=
  catch
    (result ← run;
     console_log (lit "done.") ;;
     process_exit None)
    (fun error =>
       text ← evaluate (json error);
       console_log (format text) ;;
       its_message ← evaluate (message error);
       console_error (format its_message) ;;
       process_exit None).

End Script.

(* ================================================================== *)
(** ** The schema compiler, from the specification *)
(* ================================================================== *)

Module Compiler.

Inductive SqlType :=
| SQL_STRING
| SQL_FLOAT64
| SQL_BOOLEAN
| SQL_TIMESTAMP.

(** The extraction of a value from the raw document, at a field path; the
    function syntax of the database is left to the dialect. *)
Inductive Extraction :=
| JsonString (path : list jsstring)
| JsonNumber (path : list jsstring)
| JsonBoolean (path : list jsstring)
| ParseTimestamp (path : list jsstring)
| GeoLatitude (path : list jsstring)
| GeoLongitude (path : list jsstring)
| ReferencePath (path : list jsstring)
| AlwaysNull
| JsonSubtree (path : list jsstring).

Inductive CompileError :=
| InvalidSchemaStructure
| UnsupportedFieldType (tag : jsstring).

Record Column := {
  qualifiedName : jsstring;
  expr : Extraction;
  sqlType : SqlType;
}.

(** [pathPrefix.name], dotted. *)
Definition qualify (path : list jsstring) : jsstring := Js.join (lit ".") path.

(** Modelled from the spec: the Type Resolver of the missing module
    [./schema] (section 4.1).  A type resolves to the columns it derives:
    the suffix of each, its SQL type and its extraction template.  [MAP]
    and [ARRAY] resolve to no column; a type without a rule fails. *)
Definition resolve (t : FieldType)
  : CompileError + list (option jsstring * SqlType * (list jsstring -> Extraction)) :=
  match t with
  | STRING => inr [(None, SQL_STRING, JsonString)]
  | NUMBER => inr [(None, SQL_FLOAT64, JsonNumber)]
  | BOOLEAN => inr [(None, SQL_BOOLEAN, JsonBoolean)]
  | TIMESTAMP => inr [(None, SQL_TIMESTAMP, ParseTimestamp)]
  | GEOPOINT => inr [(Some (lit "latitude"), SQL_FLOAT64, GeoLatitude);
                     (Some (lit "longitude"), SQL_FLOAT64, GeoLongitude)]
  | REFERENCE => inr [(None, SQL_STRING, ReferencePath)]
  | NULL => inr [(None, SQL_STRING, fun _ => AlwaysNull)]
  | STRINGIFIED_MAP => inr [(None, SQL_STRING, JsonSubtree)]
  | MAP _ | ARRAY _ => inr []
  | UNRECOGNIZED tag => inl (UnsupportedFieldType tag)
  end.

Definition column_at (path : list jsstring)
    (d : option jsstring * SqlType * (list jsstring -> Extraction)) : Column :=
  match d with
  | (suffix, ty, template) =>
      {| qualifiedName := qualify (path ++ match suffix with
                                           | Some s => [s]
                                           | None => []
                                           end);
         expr := template path;
         sqlType := ty |}
  end.

(** The columns of a level and the child schemas split off it, each keyed
    by its dotted field path. *)
Definition Flat : Type := list Column * list (jsstring * FirestoreSchema).

Definition merge (a b : CompileError + Flat) : CompileError + Flat :=
  match a, b with
  | inl e, _ => inl e
  | inr _, inl e => inl e
  | inr (c1, s1), inr (c2, s2) => inr (c1 ++ c2, s1 ++ s2)
  end.

(** Modelled from the spec: the Field Flattener of the missing module
    [./schema] (section 4.2), one field at a time.  A map recurses with
    the longer prefix, an array registers a child schema whose single
    field is the element, any other type appends its resolved columns. *)
Fixpoint flattenField (pathPrefix : list jsstring) (f : Field) {struct f}
  : CompileError + Flat :=
  match f with
  | mkField name type _ =>
      let path := pathPrefix ++ [name] in
      match type with
      | MAP nested =>
          (fix each (fs : list Field) : CompileError + Flat :=
             match fs with
             | [] => inr ([], [])
             | f' :: fs' => merge (flattenField path f') (each fs')
             end) nested
      | ARRAY element =>
          inr ([], [(qualify path, {| fields := [element] |})])
      | _ =>
          match resolve type with
          | inr derived => inr (map (column_at path) derived, [])
          | inl e => inl e
          end
      end
  end.

(** Modelled from the spec: [flatten(fields, pathPrefix)] of section 4.2,
    over the field list in declaration order. *)
Fixpoint flatten (fs : list Field) (pathPrefix : list jsstring)
  : CompileError + Flat :=
  match fs with
  | [] => inr ([], [])
  | f :: fs' => merge (flattenField pathPrefix f) (flatten fs' pathPrefix)
  end.

End Compiler.

(* ================================================================== *)
(** ** The latest snapshot of a changelog, from the specification *)
(* ================================================================== *)

Module Changelog.

Inductive Operation := CREATE | UPDATE | DELETE.

Record Row := {
  document_path : jsstring;
  timestamp : Z;
  sequence : Z;
  operation : Operation;
  data : jsstring;
}.

Definition is_delete (r : Row) : bool :=
  match operation r with DELETE => true | _ => false end.

Definition same_document (a b : Row) : bool :=
  Js.eqb (document_path a) (document_path b).

(** [a] was written after [b]: a greater timestamp, or the same timestamp
    and a greater sequence number. *)
Definition after (a b : Row) : bool :=
  (timestamp b <? timestamp a)
  || ((timestamp a =? timestamp b) && (sequence b <? sequence a)).

(** No row of [r]'s document among the rows kept by [among] was written
    after [r]. *)
Definition most_recent (among : Row -> bool) (table : list Row) (r : Row) : bool :=
  forallb (fun r' => negb (among r' && same_document r r' && after r' r)) table.

(** The most recent operation on [r]'s document is a delete. *)
Definition document_deleted (table : list Row) (r : Row) : bool :=
  existsb (fun d => same_document r d && is_delete d
                    && most_recent (fun _ => true) table d) table.

(** Modelled from the spec: the rows of the Latest-Snapshot view that the
    missing module [./schema] generates (section 4.3): for each document
    path the row with the maximum timestamp among the non-delete
    operations, ties broken by the sequence column, without the documents
    whose most recent operation is a delete. *)
Definition latestSnapshot (table : list Row) : list Row :=
  List.filter (fun r => negb (is_delete r)
                        && most_recent (fun r' => negb (is_delete r')) table r
                        && negb (document_deleted table r)) table.

End Changelog.

(* ================================================================== *)
(** ** What the claims are stated with *)
(* ================================================================== *)

(** The call that the loop of [run] issues for a schema name. *)
Definition call_of (config : CliConfig) (schemaName : jsstring) : Call :=
  {| c_factory := {| factory_project := bigQueryProjectId config |};
     c_datasetId := datasetId config;
     c_tableNamePrefix := tableNamePrefix config;
     c_schemaName := schemaName;
     c_schema := property (schemas config) schemaName |}.

(** The call [initializeSchemaViewResources(datasetId, tableNamePrefix,
    schemaName, schemas[schemaName])] for an entry of the mapping. *)
Definition entry_call (config : CliConfig) (entry : jsstring * FirestoreSchema)
  : Call :=
  {| c_factory := {| factory_project := bigQueryProjectId config |};
     c_datasetId := datasetId config;
     c_tableNamePrefix := tableNamePrefix config;
     c_schemaName := entry.1;
     c_schema := Some entry.2 |}.

Definition called_names (t : list Event) : list jsstring :=
  map c_schemaName (issued_calls t).

(** Failure isolation as the specification words it: when the call for
    one schema rejects, every schema name of the mapping still gets its
    call. *)
Definition failure_isolation (env : Collaborators) : Prop :=
  forall config c e,
    outcome (parseConfig env []) = Returned config ->
    is_object (schemas config) ->
    (2 <= length (schemas config))%nat ->
    (c, e) ∈ rejections (trace (run env [])) ->
    forall schemaName,
      schemaName ∈ Object_keys (schemas config) ->
      schemaName ∈ called_names (trace (run env [])).

(** The top-level handler as it is claimed to behave on every rejection
    of [run]: two lines, then [process.exit()], and status 0. *)
Definition handler_exits_with_zero (env : Collaborators) : Prop :=
  forall e,
    outcome (run env []) = Thrown e ->
    (exists line1 line2,
       trace (main env [])
       = trace (run env [])
         ++ [ConsoleLog line1; ConsoleError line2; ProcessExit None])
    /\ outcome (main env []) = Exited 0.

(** One factory, and one call per schema name in enumeration order,
    whatever the calls answer. *)
Definition one_call_per_schema (env : Collaborators) : Prop :=
  forall config,
    outcome (parseConfig env []) = Returned config ->
    is_object (schemas config) ->
    constructed_factories (trace (run env [])) = [bigQueryProjectId config]
    /\ issued_calls (trace (run env [])) = map (entry_call config) (schemas config).

(** The prompts that ask for an identifier. *)
Definition identifier_prompts : list jsstring :=
  [lit "project"; lit "bigQueryProject"; lit "dataset"; lit "tableNamePrefix"].

(** The events of calls that all resolved. *)
Definition resolved (config : CliConfig) (keys : list jsstring) : list Event :=
  map (fun k => InitializeSchemaViewResources (call_of config k) None) keys.

(** The loop of [run] on its own. *)
Definition loop (env : Collaborators) (config : CliConfig)
    (keys : list jsstring) : M unit :=
  for_in keys (fun schemaName =>
    initializeSchemaViewResources env
      {| factory_project := bigQueryProjectId config |} (datasetId config)
      (tableNamePrefix config) schemaName
      (property (schemas config) schemaName)).

(** The two columns of a geopoint at a path. *)
Definition geopoint_columns (path : list jsstring) : list Compiler.Column :=
  [ {| Compiler.qualifiedName := Compiler.qualify (path ++ [lit "latitude"]);
       Compiler.expr := Compiler.GeoLatitude path;
       Compiler.sqlType := Compiler.SQL_FLOAT64 |};
    {| Compiler.qualifiedName := Compiler.qualify (path ++ [lit "longitude"]);
       Compiler.expr := Compiler.GeoLongitude path;
       Compiler.sqlType := Compiler.SQL_FLOAT64 |} ].

(** The newest row of [r0]'s document in a table, starting from [r0]. *)
Definition newest (table : list Changelog.Row) (r0 : Changelog.Row)
  : Changelog.Row :=
  fold_left (fun best x =>
               if Changelog.same_document r0 x && Changelog.after x best
               then x else best)
    table r0.

(* ------------------------------------------------------------------ *)
(** *** Fixtures *)
(* ------------------------------------------------------------------ *)

Module Fixture.

Definition users : FirestoreSchema :=
  {| fields := [mkField (lit "name") STRING None;
                mkField (lit "home") GEOPOINT None] |}.

Definition posts : FirestoreSchema :=
  {| fields := [mkField (lit "title") STRING None;
                mkField (lit "tags") (ARRAY (mkField (lit "tag") STRING None)) None] |}.

Definition denied : JsError := Error (lit "Access Denied").

Definition flags : Command :=
  {| nonInteractive := true;
     project := Some (lit "demo");
     bigQueryProject := Some (lit "demo-bq");
     dataset := Some (lit "firestore_export");
     tableNamePrefix_flag := Some (lit "app");
     schemaFiles := [lit "schemas/*.json"] |}.

Definition nobody : Answers :=
  {| a_project := []; a_bigQueryProject := []; a_dataset := [];
     a_tableNamePrefix := []; a_schemaFiles := [] |}.

(** Two schemas; the factory call for [users], the first, rejects. *)
Definition users_denied : Collaborators :=
  {| program := flags;
     PROJECT_ID := Undefined;
     prompt := nobody;
     readSchemas := fun _ => inr [(lit "users", users); (lit "posts", posts)];
     firebase_apps := O;
     factory_settles := fun _ c =>
       if Js.eqb (c_schemaName c) (lit "users") then Some denied else None |}.

(** Two schemas; every factory call resolves. *)
Definition all_granted : Collaborators :=
  {| program := flags;
     PROJECT_ID := Undefined;
     prompt := nobody;
     readSchemas := fun _ => inr [(lit "users", users); (lit "posts", posts)];
     firebase_apps := O;
     factory_settles := fun _ _ => None |}.

(** A rejection whose value holds a reference to itself:
    [JSON.stringify] throws on it. *)
Definition circular : JsError :=
  thrown (Throws (Error (lit "Converting circular structure to JSON")))
         (Gives (Str (lit "Quota exceeded"))).

(** A rejection with [undefined]: it has no text, and reading its
    [message] throws. *)
Definition nothing : JsError :=
  thrown (Gives Undefined)
         (Throws (Error (lit "Cannot read property 'message' of undefined"))).

(** One schema; its factory call rejects with the circular value. *)
Definition users_circular : Collaborators :=
  {| program := flags;
     PROJECT_ID := Undefined;
     prompt := nobody;
     readSchemas := fun _ => inr [(lit "users", users)];
     firebase_apps := O;
     factory_settles := fun _ _ => Some circular |}.

(** One schema; its factory call rejects with [undefined]. *)
Definition users_nothing : Collaborators :=
  {| program := flags;
     PROJECT_ID := Undefined;
     prompt := nobody;
     readSchemas := fun _ => inr [(lit "users", users)];
     firebase_apps := O;
     factory_settles := fun _ _ => Some nothing |}.

(** The schema files hold no schema. *)
Definition no_schemas : Collaborators :=
  {| program := flags;
     PROJECT_ID := Undefined;
     prompt := nobody;
     readSchemas := fun _ => inr [];
     firebase_apps := O;
     factory_settles := fun _ _ => None |}.

(** The dataset flag is missing. *)
Definition no_dataset : Collaborators :=
  {| program :=
       {| nonInteractive := true;
          project := Some (lit "demo");
          bigQueryProject := Some (lit "demo-bq");
          dataset := None;
          tableNamePrefix_flag := Some (lit "app");
          schemaFiles := [lit "schemas/*.json"] |};
     PROJECT_ID := Undefined;
     prompt := nobody;
     readSchemas := fun _ => inr [(lit "users", users)];
     firebase_apps := O;
     factory_settles := fun _ _ => None |}.

Definition config_of (s : Schemas) : CliConfig :=
  {| projectId := lit "demo"; bigQueryProjectId := lit "demo-bq";
     datasetId := lit "firestore_export"; tableNamePrefix := lit "app";
     schemas := s |}.

Definition two_schemas : CliConfig :=
  config_of [(lit "users", users); (lit "posts", posts)].

Definition row (path : string) (t s : Z) (o : Changelog.Operation)
  : Changelog.Row :=
  {| Changelog.document_path := lit path; Changelog.timestamp := t;
     Changelog.sequence := s; Changelog.operation := o;
     Changelog.data := [] |}.

End Fixture.

(* ================================================================== *)
(** ** What the further properties are stated with *)
(* ================================================================== *)

(** Code units by class: [a-z], [A-Z], [0-9]. *)
Definition lower_unit (c : N) : Prop := (97 <= c <= 122)%N.
Definition upper_unit (c : N) : Prop := (65 <= c <= 90)%N.
Definition digit_unit (c : N) : Prop := (48 <= c <= 57)%N.

(** [[a-zA-Z0-9_]] *)
Definition word_unit (c : N) : Prop :=
  lower_unit c \/ upper_unit c \/ digit_unit c \/ c = 95%N.

(** [[a-z0-9-]] *)
Definition project_unit (c : N) : Prop :=
  lower_unit c \/ digit_unit c \/ c = 45%N.

(** Some code unit of the string is not white space. *)
Definition has_ink (s : jsstring) : Prop :=
  exists c, c ∈ s /\ is_white_space c = false.

(** The condition under which [parseConfig] prints the help and exits
    (index.ts, lines 167-173). *)
Definition flags_missing (p : Command) : bool :=
  bool_decide (project p = None)
  || bool_decide (bigQueryProject p = None)
  || bool_decide (dataset p = None)
  || bool_decide (tableNamePrefix_flag p = None)
  || (length (schemaFiles p) =? 0)%nat.

(** commander calls the collector of a repeatable option once for each
    occurrence, left to right, with what was collected before. *)
Definition collected (values previous : list jsstring) : list jsstring :=
  fold_left (fun previous value => collect value previous) values previous.

(** The question of a given name. *)
Definition question_named (qs : list Question) (name : jsstring)
  : option Question :=
  List.find (fun q => Js.eqb (q_name q) name) qs.

(** inquirer takes an answer when the question has no validator or when
    its validator returns [true]. *)
Definition accepts (qs : list Question) (name : jsstring) (v : Js.value)
  : bool :=
  match question_named qs name with
  | Some q =>
      match q_validate q with
      | Some validate =>
          match validate v with
          | Valid => true
          | Complaint _ => false
          end
      | None => true
      end
  | None => false
  end.

(** The assignments to [process.env] among some events. *)
Definition env_assignments (t : list Event) : list (jsstring * jsstring) :=
  omap (fun e => match e with
                 | SetEnv name value => Some (name, value)
                 | _ => None
                 end) t.

(** The lines written with [console.log] among some events. *)
Definition logged (t : list Event) : list jsstring :=
  omap (fun e => match e with
                 | ConsoleLog line => Some line
                 | _ => None
                 end) t.

(** The events of [run] between the parsing of the configuration and the
    loop over the schemas, when [apps] Firebase apps exist. *)
Definition preamble (apps : nat) (config : CliConfig) : list Event :=
  [SetEnv (lit "PROJECT_ID") (projectId config);
   SetEnv (lit "GOOGLE_CLOUD_PROJECT") (bigQueryProjectId config)]
  ++ (if (apps =? 0)%nat
      then [InitializeApp (lit "https://" ++ projectId config
                           ++ lit ".firebaseio.com")]
      else [])
  ++ (if (length (Object_keys (schemas config)) =? 0)%nat
      then [ConsoleLog (lit "No schema files found!")]
      else [])
  ++ [NewViewFactory (bigQueryProjectId config)].

Definition is_factory_call (e : Event) : bool :=
  match e with
  | InitializeSchemaViewResources _ _ => true
  | _ => false
  end.

(** The file names that the interactive path hands to [readSchemas]. *)
Definition answered_files (a : Answers) : list jsstring :=
  map trim (split 44%N (a_schemaFiles a)).

Module Fixture2.

(** An interactive session: no flag, the answers typed at the prompts. *)
Definition interactive : Collaborators :=
  {| program :=
       {| nonInteractive := false;
          project := Some (lit "ignored");
          bigQueryProject := None;
          dataset := None;
          tableNamePrefix_flag := None;
          schemaFiles := [] |};
     PROJECT_ID := Str (lit "demo");
     prompt :=
       {| a_project := lit "demo";
          a_bigQueryProject := lit "demo-bq";
          a_dataset := lit "firestore_export";
          a_tableNamePrefix := lit "app";
          a_schemaFiles := lit " schemas/users.json , schemas/posts.json" |};
     readSchemas := fun _ =>
       inr [(lit "users", Fixture.users); (lit "posts", Fixture.posts)];
     firebase_apps := O;
     factory_settles := fun _ _ => None |}.

(** The schema files cannot be read. *)
Definition unreadable : Collaborators :=
  {| program := Fixture.flags;
     PROJECT_ID := Undefined;
     prompt := Fixture.nobody;
     readSchemas := fun _ => inl Fixture.denied;
     firebase_apps := O;
     factory_settles := fun _ _ => None |}.

(** The schema files cannot be read, and what is thrown is circular. *)
Definition unreadable_circular : Collaborators :=
  {| program := Fixture.flags;
     PROJECT_ID := Undefined;
     prompt := Fixture.nobody;
     readSchemas := fun _ => inl Fixture.circular;
     firebase_apps := O;
     factory_settles := fun _ _ => None |}.

(** A Firebase app exists already when the script starts. *)
Definition app_exists : Collaborators :=
  {| program := Fixture.flags;
     PROJECT_ID := Undefined;
     prompt := Fixture.nobody;
     readSchemas := fun _ =>
       inr [(lit "users", Fixture.users); (lit "posts", Fixture.posts)];
     firebase_apps := 1%nat;
     factory_settles := fun _ _ => None |}.

End Fixture2.

(* ================================================================== *)
(** ** The definitions on small inputs *)
(* ================================================================== *)

Section SmallInputs.

Example bigquery_pattern_examples :
  BIGQUERY_VALID_CHARACTERS (lit "users_2024") = true
  /\ BIGQUERY_VALID_CHARACTERS (lit "my table") = false
  /\ BIGQUERY_VALID_CHARACTERS [] = false.
Proof. repeat split; reflexivity. Qed.

Example firestore_pattern_examples :
  FIRESTORE_VALID_CHARACTERS (lit "my project") = true
  /\ FIRESTORE_VALID_CHARACTERS (lit "users/posts") = false
  /\ FIRESTORE_VALID_CHARACTERS [] = false.
Proof. repeat split; reflexivity. Qed.

Example gcp_project_pattern_examples :
  GCP_PROJECT_VALID_CHARACTERS (lit "demo-bq-1") = true
  /\ GCP_PROJECT_VALID_CHARACTERS (lit "Demo") = false
  /\ GCP_PROJECT_VALID_CHARACTERS (lit "a23456789012345678901234567890") = true
  /\ GCP_PROJECT_VALID_CHARACTERS (lit "a234567890123456789012345678901") = false.
Proof. repeat split; reflexivity. Qed.

Example trim_examples :
  trim (lit "  a b  ") = lit "a b"
  /\ trim [9; 10; 160; 8232; 65279]%N = []
  /\ map trim (split 44%N (lit "a.json, b.json")) = [lit "a.json"; lit "b.json"]
  /\ split 44%N [] = [[]].
Proof. repeat split; reflexivity. Qed.

Example validateInput_examples :
  validateInput (Str (lit "firestore_export")) (lit "dataset ID")
    BIGQUERY_VALID_CHARACTERS = Valid
  /\ validateInput (Str (lit "   ")) (lit "dataset ID")
       BIGQUERY_VALID_CHARACTERS = Complaint (lit "Please supply a dataset ID")
  /\ validateInput Undefined (lit "dataset ID")
       BIGQUERY_VALID_CHARACTERS = Complaint (lit "Please supply a dataset ID")
  /\ validateInput (Str (lit "my-dataset")) (lit "dataset ID")
       BIGQUERY_VALID_CHARACTERS
     = Complaint (lit "The dataset ID must only contain letters or spaces").
Proof. repeat split; reflexivity. Qed.

Example main_all_granted :
  called_names (trace (main Fixture.all_granted [])) = [lit "users"; lit "posts"]
  /\ last (trace (main Fixture.all_granted [])) = Some (ProcessExit None)
  /\ outcome (main Fixture.all_granted []) = Exited 0.
Proof. repeat split; reflexivity. Qed.

Example main_users_denied :
  called_names (trace (main Fixture.users_denied [])) = [lit "users"]
  /\ outcome (run Fixture.users_denied []) = Thrown Fixture.denied
  /\ outcome (main Fixture.users_denied []) = Exited 0.
Proof. repeat split; reflexivity. Qed.

Example main_users_circular :
  logged (trace (main Fixture.users_circular [])) = []
  /\ outcome (main Fixture.users_circular [])
     = Thrown (Error (lit "Converting circular structure to JSON")).
Proof. repeat split; reflexivity. Qed.

Example main_users_nothing :
  logged (trace (main Fixture.users_nothing [])) = [lit "undefined"]
  /\ outcome (main Fixture.users_nothing [])
     = Thrown (Error (lit "Cannot read property 'message' of undefined")).
Proof. repeat split; reflexivity. Qed.

Example flatten_users :
  Compiler.flatten (fields Fixture.users) []
  = inr ([ {| Compiler.qualifiedName := lit "name";
              Compiler.expr := Compiler.JsonString [lit "name"];
              Compiler.sqlType := Compiler.SQL_STRING |};
           {| Compiler.qualifiedName := lit "home.latitude";
              Compiler.expr := Compiler.GeoLatitude [lit "home"];
              Compiler.sqlType := Compiler.SQL_FLOAT64 |};
           {| Compiler.qualifiedName := lit "home.longitude";
              Compiler.expr := Compiler.GeoLongitude [lit "home"];
              Compiler.sqlType := Compiler.SQL_FLOAT64 |} ], []).
Proof. reflexivity. Qed.

Example flatten_posts_children :
  Compiler.flatten (fields Fixture.posts) []
  = inr ([ {| Compiler.qualifiedName := lit "title";
              Compiler.expr := Compiler.JsonString [lit "title"];
              Compiler.sqlType := Compiler.SQL_STRING |} ],
         [(lit "tags", {| fields := [mkField (lit "tag") STRING None] |})]).
Proof. reflexivity. Qed.

Example flatten_unsupported :
  Compiler.flatten
    [mkField (lit "a") STRING None;
     mkField (lit "b") (UNRECOGNIZED (lit "BLOB")) None] []
  = inl (Compiler.UnsupportedFieldType (lit "BLOB")).
Proof. reflexivity. Qed.

Example latest_snapshot_example :
  map (fun r => (Changelog.document_path r, Changelog.timestamp r,
                 Changelog.sequence r))
    (Changelog.latestSnapshot
       [Fixture.row "a" 1 0 Changelog.CREATE;
        Fixture.row "a" 2 0 Changelog.UPDATE;
        Fixture.row "b" 1 0 Changelog.CREATE;
        Fixture.row "b" 5 1 Changelog.DELETE;
        Fixture.row "b" 5 0 Changelog.UPDATE;
        Fixture.row "c" 3 0 Changelog.DELETE;
        Fixture.row "c" 3 1 Changelog.CREATE;
        Fixture.row "a" 2 1 Changelog.UPDATE])
  = [(lit "c", 3, 1); (lit "a", 2, 1)].
Proof. reflexivity. Qed.

End SmallInputs.

(* ================================================================== *)
(** ** Input validation *)
(* ================================================================== *)

Section Validation.

Lemma eqb_nil_true (s : jsstring) : Js.eqb s [] = true <-> s = [].
Proof. unfold Js.eqb. apply bool_decide_eq_true. Qed.

Lemma eqb_nil_false (s : jsstring) : Js.eqb s [] = false <-> s <> [].
Proof. unfold Js.eqb. apply bool_decide_eq_false. Qed.

Lemma trimStart_nil_iff (s : jsstring) :
  trimStart s = [] <-> forallb is_white_space s = true.
Proof.
  induction s as [|c s IH]; simpl; [tauto|].
  destruct (is_white_space c); simpl; [exact IH|].
  split; discriminate.
Qed.

Lemma trimStart_keeps_last (s : jsstring) (c : N) :
  is_white_space c = false -> trimStart (s ++ [c]) <> [].
Proof.
  intros Hc. induction s as [|d s IH]; simpl.
  - rewrite Hc. discriminate.
  - destruct (is_white_space d); [exact IH | discriminate].
Qed.

Lemma trimStart_head (s : jsstring) :
  match trimStart s with
  | [] => True
  | c :: _ => is_white_space c = false
  end.
Proof.
  induction s as [|c s IH]; simpl; [exact I|].
  destruct (is_white_space c) eqn:E; [exact IH | exact E].
Qed.

(** A string trims to nothing exactly when it is made of white space. *)
Lemma trim_nil_iff (s : jsstring) :
  trim s = [] <-> forallb is_white_space s = true.
Proof.
  rewrite <- trimStart_nil_iff. unfold trim, trimEnd. split.
  - intros H. pose proof (trimStart_head s) as Hh.
    destruct (trimStart s) as [|c t] eqn:E; [reflexivity|].
    exfalso. apply (f_equal (@rev N)) in H. rewrite rev_involutive in H.
    simpl in H. exact (trimStart_keeps_last (rev t) c Hh H).
  - intros ->. reflexivity.
Qed.

Lemma trim_not_nil_truthy (s : jsstring) : trim s <> [] -> truthy (Str s) = true.
Proof. destruct s; [intros H; exfalso; apply H; reflexivity | reflexivity]. Qed.

(** The guard of [validateInput] on a string. *)
Lemma missing_iff (s : jsstring) :
  negb (truthy (Str s)) || Js.eqb s [] || Js.eqb (trim s) [] = true
  <-> trim s = [].
Proof.
  rewrite <- eqb_nil_true. destruct s as [|c s]; simpl; [|reflexivity].
  split; reflexivity.
Qed.

Lemma validateInput_string (s : jsstring) (name : jsstring) (regex : RegExp.t) :
  validateInput (Str s) name regex =
    if Js.eqb (trim s) [] then Complaint (lit "Please supply a " ++ name)
    else if regex s
         then Valid
         else Complaint (lit "The " ++ name
                         ++ lit " must only contain letters or spaces").
Proof.
  unfold validateInput. destruct (Js.eqb (trim s) []) eqn:E.
  - rewrite orb_true_r. reflexivity.
  - rewrite orb_false_r. destruct s as [|c s]; [discriminate E|].
    simpl. destruct (regex (c :: s)); reflexivity.
Qed.

(** A prompt whose validator is [validateInput] at one of the patterns. *)
Ltac identifier_prompt valid :=
  eexists _, _, _; split; [reflexivity|];
  split; [|split; [intros ?; reflexivity | intros ?; apply valid]];
  repeat first [apply list_elem_of_here | apply list_elem_of_further].

(** C10. [validateInput] answers [true] exactly for a truthy value whose
    trimmed text is not empty and that matches the regular expression;
    a missing or white-space-only value gets "Please supply a <name>", a
    value that fails the expression gets "The <name> must only contain
    letters or spaces"; hence each of the four identifier prompts, whose
    validator is [validateInput] with its own pattern, refuses empty and
    non-matching input. *)
Theorem validateInput_spec (value : Js.value) (name : jsstring) (regex : RegExp.t) :
  (validateInput value name regex = Valid <->
     truthy value = true
     /\ exists s, value = Str s /\ trim s <> [] /\ regex s = true)
  /\ ((truthy value = false
       \/ exists s, value = Str s /\ forallb is_white_space s = true) ->
      validateInput value name regex = Complaint (lit "Please supply a " ++ name))
  /\ (forall s, value = Str s -> trim s <> [] -> regex s = false ->
      validateInput value name regex =
        Complaint (lit "The " ++ name ++ lit " must only contain letters or spaces"))
  /\ (forall pid q,
        q ∈ questions pid -> q_name q ∈ identifier_prompts ->
        exists validate label pattern,
          q_validate q = Some validate
          /\ pattern ∈ [FIRESTORE_VALID_CHARACTERS; GCP_PROJECT_VALID_CHARACTERS;
                         BIGQUERY_VALID_CHARACTERS]
          /\ (forall v, validate v = validateInput v label pattern)
          /\ (forall v, validate v = Valid ->
                exists s, v = Str s /\ trim s <> [] /\ pattern s = true)).
Proof.
  assert (Hvalid : forall v nm re, validateInput v nm re = Valid ->
            exists s, v = Str s /\ trim s <> [] /\ re s = true).
  { intros [| |s] nm re; try discriminate.
    rewrite validateInput_string.
    destruct (Js.eqb (trim s) []) eqn:E; [discriminate|].
    destruct (re s) eqn:R; [|discriminate].
    intros _. exists s. apply eqb_nil_false in E. auto. }
  split; [split|split; [|split]].
  - intros H. split; [|apply (Hvalid _ _ _ H)].
    destruct (Hvalid _ _ _ H) as (s & -> & Ht & _).
    apply trim_not_nil_truthy, Ht.
  - intros (_ & s & -> & Ht & Hr). rewrite validateInput_string.
    apply eqb_nil_false in Ht. rewrite Ht, Hr. reflexivity.
  - intros [Hf | (s & -> & Hw)].
    + destruct value as [| |[|c s]]; try reflexivity. discriminate.
    + rewrite validateInput_string.
      apply trim_nil_iff, eqb_nil_true in Hw. rewrite Hw. reflexivity.
  - intros s -> Ht Hr. rewrite validateInput_string.
    apply eqb_nil_false in Ht. rewrite Ht, Hr. reflexivity.
  - intros pid q Hq Hname. unfold questions in Hq.
    repeat (apply elem_of_cons in Hq as [-> | Hq]); simpl in *.
    + identifier_prompt Hvalid.
    + identifier_prompt Hvalid.
    + identifier_prompt Hvalid.
    + identifier_prompt Hvalid.
    + exfalso. unfold identifier_prompts in Hname.
      repeat (apply elem_of_cons in Hname as [Hname | Hname]);
        try (vm_compute in Hname; discriminate).
      inversion Hname.
    + inversion Hq.
Qed.

End Validation.

(* ================================================================== *)
(** ** The run over the schemas *)
(* ================================================================== *)

Ltac conjuncts := repeat match goal with |- _ /\ _ => split end.

Ltac step_M :=
  unfold mbind, M_bind, bind, catch, emit, ret, throw, process_exit,
    console_log, console_error; simpl.

Section Observers.

Lemma issued_calls_app (t1 t2 : list Event) :
  issued_calls (t1 ++ t2) = issued_calls t1 ++ issued_calls t2.
Proof. apply omap_app. Qed.

Lemma rejections_app (t1 t2 : list Event) :
  rejections (t1 ++ t2) = rejections t1 ++ rejections t2.
Proof. apply omap_app. Qed.

Lemma constructed_factories_app (t1 t2 : list Event) :
  constructed_factories (t1 ++ t2)
  = constructed_factories t1 ++ constructed_factories t2.
Proof. apply omap_app. Qed.

Lemma issued_calls_resolved {A} (f : A -> Call) (l : list A) :
  issued_calls (map (fun a => InitializeSchemaViewResources (f a) None) l)
  = map f l.
Proof. induction l as [|a l IH]; simpl; [reflexivity|]. f_equal. exact IH. Qed.

Lemma rejections_resolved {A} (f : A -> Call) (l : list A) :
  rejections (map (fun a => InitializeSchemaViewResources (f a) None) l) = [].
Proof. induction l as [|a l IH]; simpl; [reflexivity | exact IH]. Qed.

Lemma constructed_factories_calls {A} (f : A -> Call) (l : list A) :
  constructed_factories
    (map (fun a => InitializeSchemaViewResources (f a) None) l) = [].
Proof. induction l as [|a l IH]; simpl; [reflexivity | exact IH]. Qed.

End Observers.

Section Objects.

Lemma property_entry (o : Schemas) (key : jsstring) (schema : FirestoreSchema) :
  is_object o -> (key, schema) ∈ o -> property o key = Some schema.
Proof.
  unfold is_object, Object_keys.
  induction o as [|[k v] o IH]; intros Hnd Hin; [inversion Hin|].
  simpl in *. apply NoDup_cons in Hnd as [Hk Hnd].
  unfold Js.eqb. case_bool_decide as E.
  - subst k. apply elem_of_cons in Hin as [Heq | Hin]; [congruence|].
    exfalso. apply Hk. apply list_elem_of_fmap. exists (key, schema). auto.
  - apply elem_of_cons in Hin as [Heq | Hin]; [congruence|]. auto.
Qed.

(** In an object, [o[key]] is the value enumerated with [key]. *)
Lemma call_of_entries (config : CliConfig) :
  is_object (schemas config) ->
  map (call_of config) (Object_keys (schemas config))
  = map (entry_call config) (schemas config).
Proof.
  intros Hobj. unfold Object_keys. rewrite map_map.
  apply map_ext_in. intros [k v] Hin. unfold call_of, entry_call. simpl.
  f_equal. apply property_entry; [exact Hobj|].
  apply list_elem_of_In, Hin.
Qed.

End Objects.

Section Run.

Variable env : Collaborators.

Lemma parseConfig_quiet (past : list Event) :
  issued_calls (trace (parseConfig env past)) = []
  /\ rejections (trace (parseConfig env past)) = []
  /\ constructed_factories (trace (parseConfig env past)) = [].
Proof.
  unfold parseConfig, call_readSchemas. step_M.
  repeat (case_match; simpl); auto.
Qed.

Lemma run_after_parse (config : CliConfig) (past : list Event) :
  outcome (parseConfig env past) = Returned config ->
  trace (run env past)
  = trace (parseConfig env past)
    ++ trace (run_config env config (past ++ trace (parseConfig env past)))
  /\ outcome (run env past)
     = outcome (run_config env config (past ++ trace (parseConfig env past))).
Proof.
  intros H. unfold run, mbind, M_bind, bind. cbv zeta. rewrite H. auto.
Qed.

(** The loop either awaits every call, or stops at the first call that
    rejects and throws its error. *)
Lemma loop_shape (config : CliConfig) (keys : list jsstring) :
  forall past,
    (trace (loop env config keys past) = resolved config keys
     /\ outcome (loop env config keys past) = Returned tt)
    \/ (exists before k after e,
          keys = before ++ k :: after
          /\ trace (loop env config keys past)
             = resolved config before
               ++ [InitializeSchemaViewResources (call_of config k) (Some e)]
          /\ outcome (loop env config keys past) = Thrown e).
Proof.
  induction keys as [|key keys IH]; intros past.
  - left. split; reflexivity.
  - unfold loop. simpl. step_M. fold (call_of config key).
    destruct (factory_settles env (issued_calls past) (call_of config key))
      as [e|] eqn:S; simpl.
    + right. exists [], key, keys, e. auto.
    + fold (loop env config keys).
      destruct (IH (past ++ [InitializeSchemaViewResources (call_of config key) None]))
        as [[Ht Ho] | (before & k & after & e & -> & Ht & Ho)].
      * left. rewrite Ht, Ho. auto.
      * right. exists (key :: before), k, after, e.
        rewrite Ht, Ho. auto.
Qed.


Lemma bind_returned {A B} (m : M A) (k : A -> M B) (past t : list Event) (a : A) :
  m past = {| trace := t; outcome := Returned a |} ->
  (m ≫= k) past
  = {| trace := t ++ trace (k a (past ++ t)); outcome := outcome (k a (past ++ t)) |}.
Proof. intros H. unfold mbind, M_bind, bind. rewrite H. reflexivity. Qed.

Lemma bind_then_ret {A B} (m : M A) (b : B) (past : list Event) :
  (m ≫= fun _ => ret b) past
  = {| trace := trace (m past);
       outcome := match outcome (m past) with
                  | Returned _ => Returned b
                  | Thrown e => Thrown e
                  | Exited status => Exited status
                  end |}.
Proof.
  unfold mbind, M_bind, bind, ret.
  destruct (outcome (m past)); simpl; rewrite ?app_nil_r; reflexivity.
Qed.

Lemma run_config_shape (config : CliConfig) (past : list Event) :
  exists pre,
    issued_calls pre = [] /\ rejections pre = []
    /\ constructed_factories pre = [bigQueryProjectId config]
    /\ (Object_keys (schemas config) = [] ->
        ConsoleLog (lit "No schema files found!") ∈ pre)
    /\ trace (run_config env config past)
       = pre ++ trace (loop env config (Object_keys (schemas config)) (past ++ pre))
    /\ outcome (run_config env config past)
       = match outcome (loop env config (Object_keys (schemas config)) (past ++ pre)) with
         | Returned _ => Returned 0
         | Thrown e => Thrown e
         | Exited status => Exited status
         end.
Proof.
  unfold run_config.
  fold (loop env config (Object_keys (schemas config))).
  do 3 (erewrite bind_returned by reflexivity).
  set (boot := if (_ =? 0)%nat then emit _ else ret tt).
  assert (Hboot : exists t, (forall p, boot p = {| trace := t; outcome := Returned tt |})
                            /\ issued_calls t = [] /\ rejections t = []
                            /\ constructed_factories t = []).
  { subst boot. destruct (_ =? 0)%nat; eexists; (split; [reflexivity|]);
      repeat split; reflexivity. }
  destruct Hboot as (tb & Hb & Hb1 & Hb2 & Hb3).
  erewrite (bind_returned boot) by apply Hb.
  set (report := if (_ =? 0)%nat then console_log _ else ret tt).
  assert (Hreport : exists t, (forall p, report p = {| trace := t; outcome := Returned tt |})
                              /\ issued_calls t = [] /\ rejections t = []
                              /\ constructed_factories t = []
                              /\ (Object_keys (schemas config) = [] ->
                                  ConsoleLog (lit "No schema files found!") ∈ t)).
  { subst report. destruct (Object_keys (schemas config)) as [|k ks]; simpl;
      eexists; (split; [reflexivity|]); (split; [|split; [|split]]);
      try reflexivity.
    - intros _. apply list_elem_of_here.
    - discriminate. }
  destruct Hreport as (tr & Hr & Hr1 & Hr2 & Hr3 & Hr4).
  erewrite (bind_returned report) by apply Hr.
  erewrite bind_returned by reflexivity.
  fold (loop env config (Object_keys (schemas config))).
  rewrite bind_then_ret. cbn [trace outcome]. unfold emit, ret. cbn [trace].
  exists ([SetEnv (lit "PROJECT_ID") (projectId config);
           SetEnv (lit "GOOGLE_CLOUD_PROJECT") (bigQueryProjectId config)]
          ++ tb ++ tr ++ [NewViewFactory (bigQueryProjectId config)]).
  rewrite !issued_calls_app, !rejections_app, !constructed_factories_app.
  rewrite Hb1, Hb2, Hb3, Hr1, Hr2, Hr3.
  rewrite ?app_nil_r, <- ?app_assoc. cbn [app].
  split; [reflexivity|]. split; [reflexivity|]. split; [reflexivity|].
  split; [|split; reflexivity].
  intros Hk. do 2 apply list_elem_of_further.
  apply elem_of_app. right. apply elem_of_app. left. auto.
Qed.

(** [run] as a whole, once the configuration is parsed: the events before
    the loop, then either every call, or the calls up to the one that
    rejects. *)
Lemma run_shape (config : CliConfig) :
  outcome (parseConfig env []) = Returned config ->
  exists pre,
    issued_calls pre = [] /\ rejections pre = []
    /\ constructed_factories pre = [bigQueryProjectId config]
    /\ (Object_keys (schemas config) = [] ->
        ConsoleLog (lit "No schema files found!") ∈ pre)
    /\ ((trace (run env []) = pre ++ resolved config (Object_keys (schemas config))
         /\ outcome (run env []) = Returned 0)
        \/ (exists before k after e,
              Object_keys (schemas config) = before ++ k :: after
              /\ trace (run env [])
                 = pre ++ resolved config before
                   ++ [InitializeSchemaViewResources (call_of config k) (Some e)]
              /\ outcome (run env []) = Thrown e)).
Proof.
  intros Hparse. destruct (run_after_parse config [] Hparse) as [Ht Ho].
  destruct (parseConfig_quiet []) as (Hp1 & Hp2 & Hp3).
  destruct (run_config_shape config ([] ++ trace (parseConfig env [])))
    as (pre & H1 & H2 & H3 & H4 & H5 & H6).
  exists (trace (parseConfig env []) ++ pre).
  rewrite issued_calls_app, rejections_app, constructed_factories_app.
  rewrite Hp1, Hp2, Hp3, H1, H2, H3.
  split; [reflexivity|]. split; [reflexivity|]. split; [reflexivity|].
  split; [intros Hk; apply elem_of_app; right; auto|].
  destruct (loop_shape config (Object_keys (schemas config))
              (([] ++ trace (parseConfig env [])) ++ pre))
    as [[Hl Hr] | (before & k & after & e & Hk & Hl & Hr)];
    rewrite Ht, Ho, H5, H6, Hl, Hr, <- ?app_assoc.
  - left. conjuncts; rewrite <- ?app_assoc; reflexivity.
  - right. exists before, k, after, e. conjuncts; rewrite <- ?app_assoc; auto.
Qed.

(** The same, through the observers of the claims. *)
Lemma run_observed (config : CliConfig) :
  outcome (parseConfig env []) = Returned config ->
  constructed_factories (trace (run env [])) = [bigQueryProjectId config]
  /\ ((issued_calls (trace (run env []))
       = map (call_of config) (Object_keys (schemas config))
       /\ rejections (trace (run env [])) = []
       /\ outcome (run env []) = Returned 0)
      \/ (exists before k after e,
            Object_keys (schemas config) = before ++ k :: after
            /\ issued_calls (trace (run env []))
               = map (call_of config) (before ++ [k])
            /\ rejections (trace (run env [])) = [(call_of config k, e)]
            /\ outcome (run env []) = Thrown e)).
Proof.
  intros Hparse.
  destruct (run_shape config Hparse) as (pre & H1 & H2 & H3 & _ & H).
  destruct H as [[Ht Ho] | (before & k & after & e & Hk & Ht & Ho)];
    rewrite Ht, Ho.
  - rewrite constructed_factories_app, issued_calls_app, rejections_app.
    unfold resolved.
    rewrite constructed_factories_calls, issued_calls_resolved,
      rejections_resolved, H1, H2, H3.
    split; [reflexivity|]. left. conjuncts; reflexivity.
  - rewrite !constructed_factories_app, !issued_calls_app, !rejections_app.
    unfold resolved.
    rewrite constructed_factories_calls, issued_calls_resolved,
      rejections_resolved, H1, H2, H3.
    split; [reflexivity|]. right. exists before, k, after, e.
    rewrite map_app. conjuncts; auto.
Qed.

(** What the handlers of [main] add to [run]: after a return, "done."
    and the exit; after a rejection, the two lines and the exit, as far as
    the handler gets before one of its two expressions throws. *)
Lemma main_after_run :
  match outcome (run env []) with
  | Returned _ =>
      trace (main env [])
      = trace (run env []) ++ [ConsoleLog (lit "done."); ProcessExit None]
      /\ outcome (main env []) = Exited 0
  | Thrown e =>
      match json e, message e with
      | Throws e', _ =>
          trace (main env []) = trace (run env [])
          /\ outcome (main env []) = Thrown e'
      | Gives text, Throws e' =>
          trace (main env []) = trace (run env []) ++ [ConsoleLog (format text)]
          /\ outcome (main env []) = Thrown e'
      | Gives text, Gives its_message =>
          trace (main env [])
          = trace (run env [])
            ++ [ConsoleLog (format text); ConsoleError (format its_message);
                ProcessExit None]
          /\ outcome (main env []) = Exited 0
      end
  | Exited status =>
      trace (main env []) = trace (run env [])
      /\ outcome (main env []) = Exited status
  end.
Proof.
  unfold main, catch, mbind, M_bind, bind. cbv zeta.
  destruct (outcome (run env [])) as [result | e | status];
    [split; reflexivity | | split; reflexivity].
  cbn [outcome trace]. unfold evaluate.
  destruct (json e) as [text | e']; [|split; [apply app_nil_r | reflexivity]].
  destruct (message e) as [its_message | e']; split; reflexivity.
Qed.

(** What a rejection tells about the whole run. *)
Lemma rejected_run (config : CliConfig) (c : Call) (e : JsError) :
  outcome (parseConfig env []) = Returned config ->
  (c, e) ∈ rejections (trace (run env [])) ->
  exists before after,
    Object_keys (schemas config) = before ++ c_schemaName c :: after
    /\ called_names (trace (run env [])) = before ++ [c_schemaName c]
    /\ issued_calls (trace (run env []))
       = map (call_of config) (before ++ [c_schemaName c])
    /\ c = call_of config (c_schemaName c)
    /\ rejections (trace (run env [])) = [(c, e)]
    /\ outcome (run env []) = Thrown e.
Proof.
  intros Hparse Hrej.
  destruct (run_observed config Hparse) as [_ H].
  destruct H as [(_ & Hnone & _) | (before & k & after & e' & Hk & Hc & Hr & Ho)].
  - rewrite Hnone in Hrej. inversion Hrej.
  - rewrite Hr in Hrej. apply list_elem_of_singleton in Hrej.
    injection Hrej as -> ->.
    exists before, after. simpl. conjuncts; auto.
    unfold called_names. rewrite Hc, map_map. simpl. apply map_id.
Qed.

Lemma called_once (names : list jsstring) (name : jsstring) :
  NoDup names -> name ∈ names ->
  length (List.filter (fun n => Js.eqb n name) names) = 1%nat.
Proof.
  induction names as [|n names IH]; intros Hnd Hin; [inversion Hin|].
  apply NoDup_cons in Hnd as [Hn Hnd]. simpl. unfold Js.eqb at 1.
  case_bool_decide as E.
  - subst n. simpl. f_equal.
    clear IH Hin Hnd. induction names as [|m names IH]; [reflexivity|].
    simpl. unfold Js.eqb at 1. case_bool_decide as E.
    + exfalso. apply Hn. subst m. apply list_elem_of_here.
    + apply IH. intros H. apply Hn. apply list_elem_of_further, H.
  - apply elem_of_cons in Hin as [Heq | Hin]; [congruence|]. auto.
Qed.

End Run.

(* ================================================================== *)
(** ** The claims about [run] and its handlers *)
(* ================================================================== *)

Section Claims.

Variable env : Collaborators.

(** C2. When the parsed schema mapping is empty, [run] logs
    "No schema files found!", calls [initializeSchemaViewResources] zero
    times and still returns 0. *)
Theorem run_without_schemas (config : CliConfig) :
  outcome (parseConfig env []) = Returned config ->
  schemas config = [] ->
  ConsoleLog (lit "No schema files found!") ∈ trace (run env [])
  /\ issued_calls (trace (run env [])) = []
  /\ outcome (run env []) = Returned 0.
Proof.
  intros Hparse Hempty.
  assert (Hkeys : Object_keys (schemas config) = []) by (rewrite Hempty; reflexivity).
  destruct (run_shape env config Hparse) as (pre & H1 & _ & _ & Hlog & H).
  destruct H as [[Ht Ho] | (before & k & after & e & Hk & _)].
  - rewrite Ht, Ho, issued_calls_app, H1, Hkeys. conjuncts; try reflexivity.
    apply elem_of_app. left. auto.
  - rewrite Hkeys in Hk. destruct before; discriminate.
Qed.

(** C1, as amended. When the call for one schema rejects, [run] stops
    there: the schema names enumerated before it and its own are the ones
    called, no schema name enumerated after it gets a call, and [run]
    rejects with that error. *)
Theorem rejection_ends_the_loop (config : CliConfig) (c : Call) (e : JsError) :
  outcome (parseConfig env []) = Returned config ->
  is_object (schemas config) ->
  (c, e) ∈ rejections (trace (run env [])) ->
  exists before after,
    Object_keys (schemas config) = before ++ c_schemaName c :: after
    /\ called_names (trace (run env [])) = before ++ [c_schemaName c]
    /\ (forall schemaName,
          schemaName ∈ after ->
          schemaName ∉ called_names (trace (run env [])))
    /\ outcome (run env []) = Thrown e.
Proof.
  intros Hparse Hobj Hrej.
  destruct (rejected_run env config c e Hparse Hrej)
    as (before & after & Hk & Hnames & _ & _ & _ & Ho).
  exists before, after. conjuncts; auto.
  intros schemaName Hafter Hcalled. rewrite Hnames in Hcalled.
  unfold is_object in Hobj. rewrite Hk in Hobj.
  replace (before ++ c_schemaName c :: after)
    with ((before ++ [c_schemaName c]) ++ after) in Hobj
    by (rewrite <- app_assoc; reflexivity).
  apply NoDup_app in Hobj as (_ & Hdisjoint & _).
  exact (Hdisjoint _ Hcalled Hafter).
Qed.

(** C3, as amended. [run] constructs exactly one view factory, with the
    BigQuery project ID, and awaits the calls
    [initializeSchemaViewResources(datasetId, tableNamePrefix, schemaName,
    schemas[schemaName])] one at a time in the enumeration order of the
    mapping, once per schema name, up to and including the first call
    that rejects; when no call rejects, once for every schema name, and
    [run] returns 0. *)
Theorem run_calls_in_order (config : CliConfig) :
  outcome (parseConfig env []) = Returned config ->
  is_object (schemas config) ->
  constructed_factories (trace (run env [])) = [bigQueryProjectId config]
  /\ (exists n,
        issued_calls (trace (run env []))
        = map (entry_call config) (take n (schemas config)))
  /\ (rejections (trace (run env [])) = [] ->
      issued_calls (trace (run env [])) = map (entry_call config) (schemas config)
      /\ outcome (run env []) = Returned 0)
  /\ (forall c e,
        (c, e) ∈ rejections (trace (run env [])) ->
        rejections (trace (run env [])) = [(c, e)]
        /\ last (issued_calls (trace (run env []))) = Some c
        /\ outcome (run env []) = Thrown e).
Proof.
  intros Hparse Hobj.
  destruct (run_observed env config Hparse) as [Hfactory H].
  split; [exact Hfactory|].
  pose proof (call_of_entries config Hobj) as Hentries.
  destruct H as [(Hc & Hnone & Ho) | (before & k & after & e' & Hk & Hc & Hr & Ho)].
  - rewrite Hc, Hnone, Ho, Hentries. conjuncts.
    + exists (length (schemas config)). rewrite firstn_all. reflexivity.
    + auto.
    + intros c e Hin. inversion Hin.
  - rewrite Hc, Hr, Ho. conjuncts.
    + exists (S (length before)). rewrite <- firstn_map, <- Hentries, Hk.
      rewrite firstn_map. f_equal.
      replace (before ++ k :: after) with ((before ++ [k]) ++ after)
        by (rewrite <- app_assoc; reflexivity).
      symmetry. apply take_app_length'. rewrite length_app. simpl. lia.
    + discriminate.
    + intros c e Hin. apply list_elem_of_singleton in Hin.
      injection Hin as -> ->. conjuncts; auto.
      rewrite map_app. simpl. apply last_snoc.
Qed.

(** C4. A rejected call is not retried: the call of each schema name is
    issued at most once in an invocation, the rejected one exactly once,
    and [run] hands the very error of the rejection to its caller. *)
Theorem rejection_propagates_unretried (config : CliConfig) (c : Call) (e : JsError) :
  outcome (parseConfig env []) = Returned config ->
  is_object (schemas config) ->
  (c, e) ∈ rejections (trace (run env [])) ->
  NoDup (called_names (trace (run env [])))
  /\ length (List.filter (fun n => Js.eqb n (c_schemaName c))
               (called_names (trace (run env [])))) = 1%nat
  /\ rejections (trace (run env [])) = [(c, e)]
  /\ outcome (run env []) = Thrown e.
Proof.
  intros Hparse Hobj Hrej.
  destruct (rejected_run env config c e Hparse Hrej)
    as (before & after & Hk & Hnames & _ & _ & Hr & Ho).
  assert (Hnd : NoDup (called_names (trace (run env [])))).
  { rewrite Hnames. unfold is_object in Hobj. rewrite Hk in Hobj.
    replace (before ++ c_schemaName c :: after)
      with ((before ++ [c_schemaName c]) ++ after) in Hobj
      by (rewrite <- app_assoc; reflexivity).
    apply NoDup_app in Hobj as (H & _ & _). exact H. }
  conjuncts; auto.
  apply called_once; [exact Hnd|].
  rewrite Hnames. apply elem_of_app. right. apply list_elem_of_here.
Qed.

(** C5, as amended. When [run] rejects with a value that
    [JSON.stringify] turns into a text and whose [message] can be read,
    the top-level handler logs the text, then the message, and calls
    [process.exit()] without an argument: the process ends with status 0,
    the status of a run that succeeded.  When [JSON.stringify(error)]
    throws, or [error.message] does, the handler throws in turn where it
    stands and [process.exit()] is not called. *)
Theorem rejection_exits_with_zero (e : JsError) :
  outcome (run env []) = Thrown e ->
  (forall text its_message,
     json e = Gives text -> message e = Gives its_message ->
     trace (main env [])
     = trace (run env [])
       ++ [ConsoleLog (format text); ConsoleError (format its_message);
           ProcessExit None]
     /\ outcome (main env []) = Exited 0)
  /\ (forall e',
        json e = Throws e' ->
        trace (main env []) = trace (run env [])
        /\ outcome (main env []) = Thrown e')
  /\ (forall text e',
        json e = Gives text -> message e = Throws e' ->
        trace (main env []) = trace (run env []) ++ [ConsoleLog (format text)]
        /\ outcome (main env []) = Thrown e')
  /\ (forall env' result,
        outcome (run env' []) = Returned result ->
        trace (main env' [])
        = trace (run env' []) ++ [ConsoleLog (lit "done."); ProcessExit None]
        /\ outcome (main env' []) = Exited 0).
Proof.
  intros Hrun. pose proof (main_after_run env) as Hmain.
  rewrite Hrun in Hmain. conjuncts.
  - intros text its_message Hj Hm. rewrite Hj, Hm in Hmain. exact Hmain.
  - intros e' Hj. rewrite Hj in Hmain. exact Hmain.
  - intros text e' Hj Hm. rewrite Hj, Hm in Hmain. exact Hmain.
  - intros env' result Hok. pose proof (main_after_run env') as Hmain'.
    rewrite Hok in Hmain'. exact Hmain'.
Qed.

(** C9. In non-interactive mode, when one of the project, BigQuery
    project, dataset and table-name-prefix flags is undefined or no schema
    file is given, the program prints the help and exits with status 1
    having read no schema and created nothing; otherwise [parseConfig]
    reads the schema files and returns the configuration made of those
    flags and of [readSchemas(schemaFiles)]. *)
Theorem parseConfig_non_interactive :
  nonInteractive (program env) = true ->
  ((project (program env) = None
    \/ bigQueryProject (program env) = None
    \/ dataset (program env) = None
    \/ tableNamePrefix_flag (program env) = None
    \/ length (schemaFiles (program env)) = 0%nat) ->
   parseConfig env []
   = {| trace := [ProgramParse; OutputHelp; ProcessExit (Some 1)];
        outcome := Exited 1 |}
   /\ trace (main env []) = [ProgramParse; OutputHelp; ProcessExit (Some 1)]
   /\ outcome (main env []) = Exited 1)
  /\ (forall p b d t,
        project (program env) = Some p ->
        bigQueryProject (program env) = Some b ->
        dataset (program env) = Some d ->
        tableNamePrefix_flag (program env) = Some t ->
        length (schemaFiles (program env)) <> 0%nat ->
        trace (parseConfig env [])
        = [ProgramParse; ReadSchemas (schemaFiles (program env))]
        /\ outcome (parseConfig env [])
           = match readSchemas env (schemaFiles (program env)) with
             | inr loaded =>
                 Returned {| projectId := p; bigQueryProjectId := b;
                             datasetId := d; tableNamePrefix := t;
                             schemas := loaded |}
             | inl e => Thrown e
             end).
Proof.
  intros Hmode. split.
  - intros Hmissing.
    assert (Hexit : parseConfig env []
                    = {| trace := [ProgramParse; OutputHelp; ProcessExit (Some 1)];
                         outcome := Exited 1 |}).
    { unfold parseConfig. rewrite Hmode.
      destruct (project (program env)), (bigQueryProject (program env)),
        (dataset (program env)), (tableNamePrefix_flag (program env)),
        (schemaFiles (program env)); try reflexivity.
      exfalso. simpl in Hmissing.
      destruct Hmissing as [H | [H | [H | [H | H]]]]; discriminate. }
    split; [exact Hexit|].
    unfold main, run, catch, mbind, M_bind, bind. cbv zeta.
    rewrite Hexit. split; reflexivity.
  - intros p b d t Hp Hb Hd Ht Hfiles.
    unfold parseConfig, call_readSchemas. rewrite Hmode, Hp, Hb, Hd, Ht.
    destruct (schemaFiles (program env)) as [|file files];
      [exfalso; apply Hfiles; reflexivity|].
    step_M. destruct (readSchemas env (file :: files)); split; reflexivity.
Qed.

End Claims.

(* ------------------------------------------------------------------ *)
(** *** The claims at the fixtures *)
(* ------------------------------------------------------------------ *)

Section AtFixtures.

Import Fixture.

Lemma two_schemas_object : is_object (schemas two_schemas).
Proof. apply (bool_decide_unpack _). vm_compute. exact I. Qed.

Lemma users_rejected :
  (call_of two_schemas (lit "users"), denied)
  ∈ rejections (trace (run users_denied [])).
Proof. vm_compute. apply list_elem_of_here. Qed.

Lemma run_without_schemas_witness :
  outcome (parseConfig no_schemas []) = Returned (config_of [])
  /\ schemas (config_of []) = []
  /\ ConsoleLog (lit "No schema files found!") ∈ trace (run no_schemas [])
  /\ issued_calls (trace (run no_schemas [])) = []
  /\ outcome (run no_schemas []) = Returned 0.
Proof.
  split; [reflexivity|]. split; [reflexivity|].
  apply (run_without_schemas no_schemas (config_of [])); reflexivity.
Defined.

(** C1 fails as stated: with two schemas, when the call for [users]
    rejects, [posts] gets no call. *)
Lemma failure_isolation_fails : ~ failure_isolation users_denied.
Proof.
  intros H.
  specialize (H two_schemas (call_of two_schemas (lit "users")) denied
                eq_refl two_schemas_object).
  specialize (H ltac:(simpl; lia) users_rejected (lit "posts")).
  assert (Hkey : lit "posts" ∈ Object_keys (schemas two_schemas)).
  { vm_compute. apply list_elem_of_further, list_elem_of_here. }
  specialize (H Hkey). vm_compute in H.
  apply list_elem_of_singleton in H. discriminate H.
Qed.

Lemma rejection_ends_the_loop_witness :
  outcome (parseConfig users_denied []) = Returned two_schemas
  /\ is_object (schemas two_schemas)
  /\ (call_of two_schemas (lit "users"), denied)
     ∈ rejections (trace (run users_denied []))
  /\ exists before after,
       Object_keys (schemas two_schemas) = before ++ lit "users" :: after
       /\ called_names (trace (run users_denied [])) = before ++ [lit "users"]
       /\ (forall schemaName,
             schemaName ∈ after ->
             schemaName ∉ called_names (trace (run users_denied [])))
       /\ outcome (run users_denied []) = Thrown denied.
Proof.
  split; [reflexivity|]. split; [exact two_schemas_object|].
  split; [exact users_rejected|].
  exact (rejection_ends_the_loop users_denied two_schemas
           (call_of two_schemas (lit "users")) denied
           eq_refl two_schemas_object users_rejected).
Defined.

(** C3 fails as stated: with two schemas, when the call for [users]
    rejects, the calls issued are not one per schema name. *)
Lemma one_call_per_schema_fails : ~ one_call_per_schema users_denied.
Proof.
  intros H. destruct (H two_schemas eq_refl two_schemas_object) as [_ Hcalls].
  apply (f_equal (@length Call)) in Hcalls. vm_compute in Hcalls.
  discriminate Hcalls.
Qed.

Lemma run_calls_in_order_witness :
  outcome (parseConfig all_granted []) = Returned two_schemas
  /\ is_object (schemas two_schemas)
  /\ constructed_factories (trace (run all_granted [])) = [lit "demo-bq"]
  /\ issued_calls (trace (run all_granted []))
     = [entry_call two_schemas (lit "users", users);
        entry_call two_schemas (lit "posts", posts)]
  /\ outcome (run all_granted []) = Returned 0.
Proof.
  split; [reflexivity|]. split; [exact two_schemas_object|].
  destruct (run_calls_in_order all_granted two_schemas eq_refl two_schemas_object)
    as (Hfactory & _ & Hall & _).
  split; [exact Hfactory|]. exact (Hall eq_refl).
Defined.

Lemma rejection_propagates_unretried_witness :
  outcome (parseConfig users_denied []) = Returned two_schemas
  /\ is_object (schemas two_schemas)
  /\ (call_of two_schemas (lit "users"), denied)
     ∈ rejections (trace (run users_denied []))
  /\ NoDup (called_names (trace (run users_denied [])))
  /\ length (List.filter (fun n => Js.eqb n (lit "users"))
               (called_names (trace (run users_denied [])))) = 1%nat
  /\ rejections (trace (run users_denied []))
     = [(call_of two_schemas (lit "users"), denied)]
  /\ outcome (run users_denied []) = Thrown denied.
Proof.
  split; [reflexivity|]. split; [exact two_schemas_object|].
  split; [exact users_rejected|].
  exact (rejection_propagates_unretried users_denied two_schemas
           (call_of two_schemas (lit "users")) denied
           eq_refl two_schemas_object users_rejected).
Defined.

(** C5 fails as stated: when the rejection is a circular value,
    [JSON.stringify] throws in the handler and the process is not exited
    with status 0. *)
Lemma handler_exits_with_zero_fails : ~ handler_exits_with_zero users_circular.
Proof.
  intros H. destruct (H circular eq_refl) as [_ Hstatus].
  vm_compute in Hstatus. discriminate Hstatus.
Qed.

Lemma rejection_exits_with_zero_witness :
  outcome (run users_denied []) = Thrown denied
  /\ trace (main users_denied [])
     = trace (run users_denied [])
       ++ [ConsoleLog (lit "{}"); ConsoleError (lit "Access Denied");
           ProcessExit None]
  /\ outcome (main users_denied []) = Exited 0
  /\ outcome (main all_granted []) = Exited 0.
Proof.
  split; [reflexivity|].
  destruct (rejection_exits_with_zero users_denied denied eq_refl)
    as (Hprinted & _ & _ & Hsame).
  destruct (Hprinted (Str (lit "{}")) (Str (lit "Access Denied"))
              eq_refl eq_refl) as [Htrace Hstatus].
  split; [exact Htrace|]. split; [exact Hstatus|].
  exact (proj2 (Hsame all_granted 0 eq_refl)).
Defined.

Lemma parseConfig_non_interactive_witness :
  nonInteractive (program all_granted) = true
  /\ outcome (parseConfig all_granted []) = Returned two_schemas
  /\ nonInteractive (program no_dataset) = true
  /\ outcome (main no_dataset []) = Exited 1.
Proof.
  split; [reflexivity|].
  split.
  - exact (proj2 (proj2 (parseConfig_non_interactive all_granted eq_refl)
                    (lit "demo") (lit "demo-bq") (lit "firestore_export")
                    (lit "app") eq_refl eq_refl eq_refl eq_refl
                    ltac:(discriminate))).
  - split; [reflexivity|].
    exact (proj2 (proj2 (proj1 (parseConfig_non_interactive no_dataset eq_refl)
                           (or_intror (or_intror (or_introl eq_refl)))))).
Defined.

End AtFixtures.

(* ================================================================== *)
(** ** The flattener *)
(* ================================================================== *)

Section Flattening.

Import Compiler.

Lemma merge_nil_l (b : CompileError + Flat) : merge (inr ([], [])) b = b.
Proof. destruct b as [e | [c s]]; reflexivity. Qed.

Lemma merge_assoc (a b c : CompileError + Flat) :
  merge (merge a b) c = merge a (merge b c).
Proof.
  destruct a as [ea | [ca sa]], b as [eb | [cb sb]], c as [ec | [cc sc]];
    simpl; try reflexivity.
  rewrite <- !app_assoc. reflexivity.
Qed.

(** Flattening goes field by field, in declaration order. *)
Lemma flatten_app (fs gs : list Field) (pathPrefix : list jsstring) :
  flatten (fs ++ gs) pathPrefix
  = merge (flatten fs pathPrefix) (flatten gs pathPrefix).
Proof.
  induction fs as [|f fs IH]; simpl.
  - symmetry. apply merge_nil_l.
  - rewrite IH. symmetry. apply merge_assoc.
Qed.

(** C8. A [GEOPOINT] field named [f] flattens to exactly two columns,
    [f.latitude] and [f.longitude], both [FLOAT64], and to nothing else:
    alone, and among the other fields of a level, at the place where it
    is declared. *)
Theorem geopoint_flattens_to_two_columns (f : jsstring)
    (description : option jsstring) :
  flatten [mkField f GEOPOINT description] []
  = inr ([ {| qualifiedName := f ++ lit ".latitude";
              expr := GeoLatitude [f]; sqlType := SQL_FLOAT64 |};
           {| qualifiedName := f ++ lit ".longitude";
              expr := GeoLongitude [f]; sqlType := SQL_FLOAT64 |} ], [])
  /\ (forall pathPrefix before after columns1 children1 columns2 children2,
        flatten before pathPrefix = inr (columns1, children1) ->
        flatten after pathPrefix = inr (columns2, children2) ->
        flatten (before ++ mkField f GEOPOINT description :: after) pathPrefix
        = inr (columns1 ++ geopoint_columns (pathPrefix ++ [f]) ++ columns2,
               children1 ++ children2)).
Proof.
  split.
  - reflexivity.
  - intros pathPrefix before after columns1 children1 columns2 children2 H1 H2.
    rewrite flatten_app, H1. simpl. rewrite H2. reflexivity.
Qed.

End Flattening.

(* ================================================================== *)
(** ** The latest snapshot *)
(* ================================================================== *)

Section LatestSnapshot.

Import Changelog.

Lemma same_document_iff (a b : Row) :
  same_document a b = true <-> document_path a = document_path b.
Proof. unfold same_document, Js.eqb. apply bool_decide_eq_true. Qed.

Lemma same_document_refl (a : Row) : same_document a a = true.
Proof. apply same_document_iff. reflexivity. Qed.

Lemma same_document_shared (a b c : Row) :
  same_document a b = true -> same_document a c = same_document b c.
Proof.
  intros H. apply same_document_iff in H.
  unfold same_document. rewrite H. reflexivity.
Qed.

Lemma after_iff (a b : Row) :
  after a b = true
  <-> timestamp b < timestamp a
      \/ (timestamp a = timestamp b /\ sequence b < sequence a).
Proof.
  unfold after. rewrite orb_true_iff, andb_true_iff.
  rewrite !Z.ltb_lt, Z.eqb_eq. reflexivity.
Qed.

Lemma not_after_iff (a b : Row) :
  after a b = false
  <-> timestamp a < timestamp b
      \/ (timestamp a = timestamp b /\ sequence a <= sequence b).
Proof.
  rewrite <- not_true_iff_false, after_iff. lia.
Qed.

Lemma most_recent_iff (among : Row -> bool) (table : list Row) (r : Row) :
  most_recent among table r = true
  <-> forall x, In x table -> among x = true -> same_document r x = true ->
                after x r = false.
Proof.
  unfold most_recent. rewrite forallb_forall. split.
  - intros H x Hx Ha Hs. specialize (H x Hx). rewrite Ha, Hs in H.
    simpl in H. apply negb_true_iff in H. exact H.
  - intros H x Hx. apply negb_true_iff.
    destruct (among x) eqn:Ha; [|reflexivity].
    destruct (same_document r x) eqn:Hs; [|reflexivity].
    simpl. auto.
Qed.

Lemma document_deleted_iff (table : list Row) (r : Row) :
  document_deleted table r = true
  <-> exists d, In d table /\ same_document r d = true /\ is_delete d = true
                /\ most_recent (fun _ => true) table d = true.
Proof.
  unfold document_deleted. rewrite existsb_exists.
  split; intros (d & Hd & H); exists d; (split; [exact Hd|]).
  - apply andb_true_iff in H as [H H3]. apply andb_true_iff in H as [H1 H2].
    auto.
  - destruct H as (H1 & H2 & H3). rewrite H1, H2, H3. reflexivity.
Qed.

Lemma existsb_pointwise {A} (f g : A -> bool) (l : list A) :
  (forall x, f x = g x) -> existsb f l = existsb g l.
Proof.
  intros H. induction l as [|x l IH]; simpl; [reflexivity|].
  rewrite H, IH. reflexivity.
Qed.

Lemma document_deleted_shared (table : list Row) (a b : Row) :
  same_document a b = true ->
  document_deleted table a = document_deleted table b.
Proof.
  intros H. unfold document_deleted. apply existsb_pointwise.
  intros d. rewrite (same_document_shared a b d H). reflexivity.
Qed.

(** The fold keeps a row of the document that no row seen so far
    follows. *)
Lemma newest_spec (table : list Row) (r0 : Row) :
  forall best,
    same_document r0 best = true ->
    let m := fold_left
               (fun best x => if same_document r0 x && after x best then x else best)
               table best in
    same_document r0 m = true
    /\ (m = best \/ In m table)
    /\ after best m = false
    /\ (forall x, In x table -> same_document r0 x = true -> after x m = false).
Proof.
  induction table as [|y table IH]; intros best Hbest; simpl.
  - conjuncts; auto.
    + apply not_after_iff. lia.
    + intros x [].
  - destruct (same_document r0 y && after y best) eqn:E.
    + apply andb_true_iff in E as [Hy Hafter].
      destruct (IH y Hy) as (H1 & H2 & H3 & H4).
      conjuncts; auto.
      * destruct H2 as [-> | H2]; auto.
      * apply after_iff in Hafter. apply not_after_iff in H3.
        apply not_after_iff. lia.
      * intros x [<- | Hx] Hs; auto.
    + destruct (IH best Hbest) as (H1 & H2 & H3 & H4).
      conjuncts; auto.
      * destruct H2 as [-> | H2]; auto.
      * intros x [<- | Hx] Hs; auto.
        rewrite Hs in E. simpl in E.
        apply not_after_iff in E. apply not_after_iff in H3.
        apply not_after_iff. lia.
Qed.

(** Every document of the table has a most recent row. *)
Lemma newest_most_recent (table : list Row) (r : Row) :
  In r table ->
  In (newest table r) table
  /\ same_document r (newest table r) = true
  /\ after r (newest table r) = false
  /\ most_recent (fun _ => true) table (newest table r) = true.
Proof.
  intros Hr. unfold newest.
  destruct (newest_spec table r r (same_document_refl r)) as (H1 & H2 & H3 & H4).
  conjuncts; auto.
  - destruct H2 as [-> | H2]; auto.
  - apply most_recent_iff. intros x Hx _ Hs. apply H4; [exact Hx|].
    rewrite (same_document_shared _ _ x H1). exact Hs.
Qed.

(** C7. Whatever the changelog holds, the Latest-Snapshot view has, for
    each document path, the rows that no row of that path follows in the
    order of timestamps and then sequence numbers, and only for the paths
    whose most recent operation is not a delete: a row of the view is not
    a delete, two rows of the view for one path carry the same timestamp
    and sequence number, a path whose most recent operation is a delete
    has no row, and every other path of the changelog has one. *)
Theorem latest_snapshot_rows (table : list Row) :
  (forall r,
     In r (latestSnapshot table)
     <-> In r table
         /\ most_recent (fun _ => true) table r = true
         /\ document_deleted table r = false)
  /\ (forall r, In r (latestSnapshot table) -> operation r <> DELETE)
  /\ (forall r1 r2,
        In r1 (latestSnapshot table) -> In r2 (latestSnapshot table) ->
        document_path r1 = document_path r2 ->
        timestamp r1 = timestamp r2 /\ sequence r1 = sequence r2)
  /\ (forall r,
        document_deleted table r = true ->
        forall r', In r' (latestSnapshot table) ->
                   document_path r' <> document_path r)
  /\ (forall r,
        In r table -> document_deleted table r = false ->
        exists r', In r' (latestSnapshot table)
                   /\ document_path r' = document_path r).
Proof.
  assert (Hrows : forall r,
            In r (latestSnapshot table)
            <-> In r table
                /\ most_recent (fun _ => true) table r = true
                /\ document_deleted table r = false).
  { intros r. unfold latestSnapshot. rewrite filter_In. split.
    - intros (Hr & Hc). apply andb_true_iff in Hc as [Hc Hlive].
      apply andb_true_iff in Hc as [Hop Hrecent].
      apply negb_true_iff in Hlive. apply negb_true_iff in Hop.
      conjuncts; auto.
      destruct (newest_most_recent table r Hr) as (Hm & Hsame & Hle & Hmax).
      assert (Hm_live : is_delete (newest table r) = false).
      { destruct (is_delete (newest table r)) eqn:D; [|reflexivity].
        assert (document_deleted table r = true); [|congruence].
        apply document_deleted_iff. exists (newest table r). auto. }
      apply most_recent_iff. intros x Hx _ Hs.
      assert (Hnot : after (newest table r) r = false).
      { apply (proj1 (most_recent_iff _ _ _) Hrecent _ Hm); [|exact Hsame].
        simpl. rewrite Hm_live. reflexivity. }
      pose proof (proj1 (most_recent_iff _ _ _) Hmax x Hx eq_refl) as Hx_le.
      rewrite <- (same_document_shared _ _ x Hsame) in Hx_le.
      specialize (Hx_le Hs).
      apply not_after_iff in Hnot. apply not_after_iff in Hx_le.
      apply not_after_iff. lia.
    - intros (Hr & Hmax & Hlive). split; [exact Hr|].
      assert (Hop : is_delete r = false).
      { destruct (is_delete r) eqn:D; [|reflexivity].
        assert (document_deleted table r = true); [|congruence].
        apply document_deleted_iff. exists r.
        conjuncts; auto using same_document_refl. }
      rewrite Hop, Hlive. simpl. rewrite andb_true_r.
      apply most_recent_iff. intros x Hx _ Hs.
      exact (proj1 (most_recent_iff _ _ _) Hmax x Hx eq_refl Hs). }
  split; [exact Hrows|]. conjuncts.
  - intros r Hr Hdel. unfold latestSnapshot in Hr. apply filter_In in Hr as [_ Hc].
    apply andb_true_iff in Hc as [Hc _]. apply andb_true_iff in Hc as [Hop _].
    unfold is_delete in Hop. rewrite Hdel in Hop. discriminate.
  - intros r1 r2 H1 H2 Hpath.
    apply Hrows in H1 as (Hin1 & Hmax1 & _).
    apply Hrows in H2 as (Hin2 & Hmax2 & _).
    apply same_document_iff in Hpath.
    pose proof (proj1 (most_recent_iff _ _ _) Hmax1 r2 Hin2 eq_refl Hpath) as Ha.
    assert (Hpath' : same_document r2 r1 = true)
      by (apply same_document_iff; symmetry; apply same_document_iff, Hpath).
    pose proof (proj1 (most_recent_iff _ _ _) Hmax2 r1 Hin1 eq_refl Hpath') as Hb.
    apply not_after_iff in Ha. apply not_after_iff in Hb. lia.
  - intros r Hdel r' Hr' Hpath.
    apply Hrows in Hr' as (_ & _ & Hlive).
    apply same_document_iff in Hpath.
    rewrite (document_deleted_shared table r' r Hpath) in Hlive. congruence.
  - intros r Hr Hlive.
    destruct (newest_most_recent table r Hr) as (Hm & Hsame & _ & Hmax).
    exists (newest table r). split.
    + apply Hrows. conjuncts; auto.
      rewrite <- (document_deleted_shared table r _ Hsame). exact Hlive.
    + symmetry. apply same_document_iff, Hsame.
Qed.

End LatestSnapshot.

(* ================================================================== *)
(** ** The three patterns *)
(* ================================================================== *)

Section Patterns.

Import RegExp.

Lemma whole_Void (s : jsstring) : whole Void s = false.
Proof. induction s as [|c s IH]; [reflexivity | exact IH]. Qed.

Lemma whole_Alt (s : jsstring) :
  forall a b, whole (Alt a b) s = whole a s || whole b s.
Proof. induction s as [|c s IH]; intros a b; simpl; [reflexivity | apply IH]. Qed.

Lemma whole_Seq_Void (r : re) (s : jsstring) : whole (Seq Void r) s = false.
Proof. induction s as [|c s IH]; [reflexivity | exact IH]. Qed.

Lemma whole_Eps (s : jsstring) :
  whole Eps s = match s with [] => true | _ => false end.
Proof. destruct s; [reflexivity | apply whole_Void]. Qed.

Lemma whole_Seq_Eps (r : re) (s : jsstring) : whole (Seq Eps r) s = whole r s.
Proof.
  destruct s as [|c s]; [reflexivity|].
  simpl. rewrite whole_Alt, whole_Seq_Void. reflexivity.
Qed.

(** A class first, then the rest. *)
Lemma whole_Seq_Class (p : N -> bool) (r : re) (s : jsstring) :
  whole (Seq (Class p) r) s
  = match s with
    | [] => false
    | c :: s' => p c && whole r s'
    end.
Proof.
  destruct s as [|c s]; [reflexivity|]. simpl.
  destruct (p c); [apply whole_Seq_Eps | apply whole_Seq_Void].
Qed.

Lemma whole_Star_Class (p : N -> bool) (s : jsstring) :
  whole (Star (Class p)) s = forallb p s.
Proof.
  induction s as [|c s IH]; [reflexivity|]. simpl.
  destruct (p c); [rewrite whole_Seq_Eps; exact IH | apply whole_Seq_Void].
Qed.

Lemma whole_upto_Class (p : N -> bool) (n : nat) :
  forall s, whole (upto n (Class p)) s = (length s <=? n)%nat && forallb p s.
Proof.
  induction n as [|n IH]; intros s.
  - simpl upto. rewrite whole_Eps. destruct s; reflexivity.
  - simpl upto. rewrite whole_Alt, whole_Eps, whole_Seq_Class.
    destruct s as [|c s]; [reflexivity|].
    rewrite IH. simpl. destruct (p c), (length s <=? n)%nat; reflexivity.
Qed.

Lemma range_iff (lo hi : string) (l h c : N) :
  lit lo = [l] -> lit hi = [h] ->
  range lo hi c = true <-> (l <= c <= h)%N.
Proof.
  intros Hl Hh. unfold range. rewrite Hl, Hh.
  rewrite andb_true_iff, !N.leb_le. reflexivity.
Qed.

Lemma char_iff (x : string) (k c : N) :
  lit x = [k] -> char x c = true <-> c = k.
Proof. intros Hk. unfold char. rewrite Hk. apply N.eqb_eq. Qed.

Lemma forallb_Forall_units (p : N -> bool) (P : N -> Prop) (s : jsstring) :
  (forall c, p c = true <-> P c) ->
  forallb p s = true <-> Forall P s.
Proof.
  intros H. rewrite forallb_forall, Forall_forall.
  split; intros Hs c Hc; apply H, Hs; [apply list_elem_of_In | apply list_elem_of_In];
    exact Hc.
Qed.

Lemma word_class (c : N) :
  range "a" "z" c || range "A" "Z" c || range "0" "9" c || char "_" c = true
  <-> word_unit c.
Proof.
  unfold word_unit, lower_unit, upper_unit, digit_unit.
  rewrite !orb_true_iff.
  rewrite (range_iff "a" "z" 97 122), (range_iff "A" "Z" 65 90),
    (range_iff "0" "9" 48 57), (char_iff "_" 95) by reflexivity.
  tauto.
Qed.

Lemma project_class (c : N) :
  range "a" "z" c || range "0" "9" c || char "-" c = true <-> project_unit c.
Proof.
  unfold project_unit, lower_unit, digit_unit. rewrite !orb_true_iff.
  rewrite (range_iff "a" "z" 97 122), (range_iff "0" "9" 48 57),
    (char_iff "-" 45) by reflexivity.
  tauto.
Qed.

(** [/^[p]+$/] *)
Lemma plus_class_language (p : N -> bool) (P : N -> Prop) (s : jsstring) :
  (forall c, p c = true <-> P c) ->
  anchored (plus (Class p)) s = true <-> s <> [] /\ Forall P s.
Proof.
  intros Hclass. unfold anchored, plus.
  rewrite whole_Seq_Class. destruct s as [|c s].
  - split; [discriminate | intros [H _]; congruence].
  - rewrite whole_Star_Class, andb_true_iff, Forall_cons.
    rewrite (forallb_Forall_units _ P s Hclass), Hclass.
    split; [intros H; split; [discriminate | exact H] | intros [_ H]; exact H].
Qed.

(** [/^[a][b]{0,n}$/] *)
Lemma class_upto_language (a b : N -> bool) (A B : N -> Prop) (n : nat)
    (s : jsstring) :
  (forall c, a c = true <-> A c) ->
  (forall c, b c = true <-> B c) ->
  anchored (Seq (Class a) (upto n (Class b))) s = true
  <-> exists c rest,
        s = c :: rest /\ A c /\ (length rest <= n)%nat /\ Forall B rest.
Proof.
  intros Ha Hb. unfold anchored.
  rewrite whole_Seq_Class. destruct s as [|c s].
  - split; [discriminate | intros (c & rest & Hs & _); discriminate].
  - rewrite whole_upto_Class, !andb_true_iff, Ha, Nat.leb_le.
    rewrite (forallb_Forall_units _ B s Hb).
    split.
    + intros (Hc & Hlen & Hrest). exists c, s. auto.
    + intros (c' & rest & [= -> ->] & Hc & Hlen & Hrest). auto.
Qed.

Lemma lower_class (c : N) : range "a" "z" c = true <-> lower_unit c.
Proof. apply (range_iff "a" "z" 97 122); reflexivity. Qed.

Lemma not_slash_class (c : N) : negb (char "/" c) = true <-> c <> 47%N.
Proof.
  rewrite negb_true_iff, <- not_true_iff_false.
  rewrite (char_iff "/" 47) by reflexivity. reflexivity.
Qed.

Lemma Forall_not_slash (s : jsstring) :
  Forall (fun c => c <> 47%N) s <-> 47%N ∉ s.
Proof.
  rewrite Forall_forall. split.
  - intros H Hin. exact (H _ Hin eq_refl).
  - intros H x Hx ->. exact (H Hx).
Qed.

(** X1. [BIGQUERY_VALID_CHARACTERS] matches exactly the non-empty strings
    made of the code units of [a-z], [A-Z], [0-9] and the underscore. *)
Theorem bigquery_pattern_language (s : jsstring) :
  BIGQUERY_VALID_CHARACTERS s = true <-> s <> [] /\ Forall word_unit s.
Proof.
  unfold BIGQUERY_VALID_CHARACTERS.
  apply plus_class_language. exact word_class.
Qed.

(** X2. [FIRESTORE_VALID_CHARACTERS] matches exactly the non-empty strings
    without a slash. *)
Theorem firestore_pattern_language (s : jsstring) :
  FIRESTORE_VALID_CHARACTERS s = true <-> s <> [] /\ 47%N ∉ s.
Proof.
  unfold FIRESTORE_VALID_CHARACTERS.
  rewrite (plus_class_language _ (fun c => c <> 47%N) s not_slash_class).
  rewrite Forall_not_slash. reflexivity.
Qed.

(** X3. [GCP_PROJECT_VALID_CHARACTERS] matches exactly the strings that
    start with a lower-case letter followed by at most 29 code units of
    [a-z], [0-9] and the hyphen: between 1 and 30 code units in all. *)
Theorem gcp_project_pattern_language (s : jsstring) :
  (GCP_PROJECT_VALID_CHARACTERS s = true
   <-> exists c rest,
         s = c :: rest /\ lower_unit c
         /\ (length rest <= 29)%nat /\ Forall project_unit rest)
  /\ (GCP_PROJECT_VALID_CHARACTERS s = true -> (1 <= length s <= 30)%nat).
Proof.
  unfold GCP_PROJECT_VALID_CHARACTERS.
  pose proof (class_upto_language _ _ lower_unit project_unit 29 s
                lower_class project_class) as H.
  split; [exact H|].
  intros Hm. apply H in Hm as (c & rest & -> & _ & Hlen & _). simpl. lia.
Qed.

End Patterns.

(* ================================================================== *)
(** ** What the prompts take *)
(* ================================================================== *)

Section Prompts.

Lemma white_space_units (c : N) :
  is_white_space c = true -> (9 <= c <= 13 \/ c = 32 \/ 160 <= c)%N.
Proof.
  unfold is_white_space.
  rewrite !orb_true_iff, andb_true_iff, !N.eqb_eq, !N.leb_le. lia.
Qed.

Lemma word_unit_ink (c : N) : word_unit c -> is_white_space c = false.
Proof.
  intros Hc. apply not_true_iff_false. intros Hw.
  apply white_space_units in Hw.
  unfold word_unit, lower_unit, upper_unit, digit_unit in Hc. lia.
Qed.

Lemma lower_unit_ink (c : N) : lower_unit c -> is_white_space c = false.
Proof. intros Hc. apply word_unit_ink. left. exact Hc. Qed.

(** A string keeps something when trimmed exactly when one of its code
    units is not white space. *)
Lemma trim_keeps_iff (s : jsstring) : trim s <> [] <-> has_ink s.
Proof.
  rewrite trim_nil_iff. unfold has_ink. split.
  - intros H. induction s as [|c s IH]; [exfalso; apply H; reflexivity|].
    destruct (is_white_space c) eqn:E.
    + destruct IH as (d & Hd & Hink); [simpl in H; rewrite E in H; exact H|].
      exists d. split; [apply list_elem_of_further, Hd | exact Hink].
    + exists c. split; [apply list_elem_of_here | exact E].
  - intros (c & Hc & Hink) Hall.
    rewrite forallb_forall in Hall.
    rewrite (Hall c) in Hink by (apply list_elem_of_In, Hc). discriminate.
Qed.

Lemma head_ink (c : N) (s : jsstring) :
  is_white_space c = false -> has_ink (c :: s).
Proof. intros H. exists c. split; [apply list_elem_of_here | exact H]. Qed.

(** On a string, the validator is the two tests in turn. *)
Lemma validateInput_valid_iff (s name : jsstring) (regex : RegExp.t) :
  validateInput (Str s) name regex = Valid <-> has_ink s /\ regex s = true.
Proof.
  rewrite validateInput_string, <- trim_keeps_iff, <- eqb_nil_false.
  destruct (Js.eqb (trim s) []), (regex s); split;
    try discriminate; try (intros [? ?]; discriminate); auto.
Qed.

Lemma accepts_iff_valid (v : Js.value) (validate : Js.value -> Validation) :
  match validate v with Valid => true | Complaint _ => false end = true
  <-> validate v = Valid.
Proof. destruct (validate v); split; try discriminate; reflexivity. Qed.

Lemma accepts_validators (pid v : Js.value) :
  (accepts (questions pid) (lit "project") v = true
   <-> validateInput v (lit "project ID") FIRESTORE_VALID_CHARACTERS = Valid)
  /\ (accepts (questions pid) (lit "bigQueryProject") v = true
      <-> validateInput v (lit "BigQuery project ID")
            GCP_PROJECT_VALID_CHARACTERS = Valid)
  /\ (accepts (questions pid) (lit "dataset") v = true
      <-> validateInput v (lit "dataset ID") BIGQUERY_VALID_CHARACTERS = Valid)
  /\ (accepts (questions pid) (lit "tableNamePrefix") v = true
      <-> validateInput v (lit "table name prefix")
            BIGQUERY_VALID_CHARACTERS = Valid).
Proof.
  conjuncts;
    apply (accepts_iff_valid v (fun value => validateInput value _ _)).
Qed.

(** X4. What each prompt takes.  The dataset and table-name-prefix
    prompts take exactly the non-empty strings of [a-zA-Z0-9_]; the
    BigQuery project prompt exactly a lower-case letter followed by at most
    29 of [a-z0-9-]; the Firebase project prompt exactly the strings
    without a slash that hold a code unit other than white space, white
    space around the identifier included, since the value is tested as
    typed; an answer that the BigQuery project prompt takes is also taken
    by the Firebase project prompt; none of the four takes a missing
    value; the schema files prompt takes anything. *)
Theorem prompts_take (pid : Js.value) (s : jsstring) :
  (accepts (questions pid) (lit "dataset") (Str s) = true
   <-> s <> [] /\ Forall word_unit s)
  /\ (accepts (questions pid) (lit "tableNamePrefix") (Str s) = true
      <-> s <> [] /\ Forall word_unit s)
  /\ (accepts (questions pid) (lit "bigQueryProject") (Str s) = true
      <-> exists c rest,
            s = c :: rest /\ lower_unit c
            /\ (length rest <= 29)%nat /\ Forall project_unit rest)
  /\ (accepts (questions pid) (lit "project") (Str s) = true
      <-> has_ink s /\ 47%N ∉ s)
  /\ (accepts (questions pid) (lit "bigQueryProject") (Str s) = true ->
      accepts (questions pid) (lit "project") (Str s) = true)
  /\ (forall name v,
        name ∈ identifier_prompts -> v = Undefined \/ v = Null ->
        accepts (questions pid) name v = false)
  /\ (forall v, accepts (questions pid) (lit "schemaFiles") v = true).
Proof.
  destruct (accepts_validators pid (Str s)) as (Hp & Hb & Hd & Ht).
  assert (Hword : validateInput (Str s) (lit "dataset ID")
                    BIGQUERY_VALID_CHARACTERS = Valid
                  <-> s <> [] /\ Forall word_unit s).
  { rewrite validateInput_valid_iff. unfold BIGQUERY_VALID_CHARACTERS.
    rewrite (plus_class_language _ word_unit s word_class).
    split; [tauto|]. intros [Hne Hall]. split; [|tauto].
    destruct s as [|c s]; [congruence|].
    apply Forall_cons in Hall as [Hc _]. apply head_ink, word_unit_ink, Hc. }
  assert (Hgcp : validateInput (Str s) (lit "BigQuery project ID")
                   GCP_PROJECT_VALID_CHARACTERS = Valid
                 <-> exists c rest,
                       s = c :: rest /\ lower_unit c
                       /\ (length rest <= 29)%nat /\ Forall project_unit rest).
  { rewrite validateInput_valid_iff. unfold GCP_PROJECT_VALID_CHARACTERS.
    rewrite (class_upto_language _ _ lower_unit project_unit 29 s
               lower_class project_class).
    split; [tauto|]. intros (c & rest & -> & Hc & Hrest).
    split; [apply head_ink, lower_unit_ink, Hc|]. exists c, rest. auto. }
  assert (Hfire : validateInput (Str s) (lit "project ID")
                    FIRESTORE_VALID_CHARACTERS = Valid
                  <-> has_ink s /\ 47%N ∉ s).
  { rewrite validateInput_valid_iff. unfold FIRESTORE_VALID_CHARACTERS.
    rewrite (plus_class_language _ (fun c => c <> 47%N) s not_slash_class).
    rewrite Forall_not_slash.
    split; [tauto|]. intros [Hink Hslash]. split; [exact Hink|].
    split; [|exact Hslash]. destruct Hink as (c & Hc & _).
    intros ->. inversion Hc. }
  conjuncts.
  - rewrite Hd. exact Hword.
  - rewrite Ht. rewrite validateInput_valid_iff in *. exact Hword.
  - rewrite Hb. exact Hgcp.
  - rewrite Hp. exact Hfire.
  - rewrite Hb, Hp, Hgcp, Hfire. intros (c & rest & -> & Hc & _ & Hrest).
    split; [apply head_ink, lower_unit_ink, Hc|].
    rewrite not_elem_of_cons. split.
    + unfold lower_unit in Hc. lia.
    + intros Hin. rewrite Forall_forall in Hrest. specialize (Hrest _ Hin).
      unfold project_unit, lower_unit, digit_unit in Hrest. lia.
  - intros name v Hname Hv. unfold identifier_prompts in Hname.
    repeat (apply elem_of_cons in Hname as [-> | Hname]);
      try (destruct Hv as [-> | ->]; reflexivity).
    inversion Hname.
  - intros v. reflexivity.
Qed.

End Prompts.

(* ================================================================== *)
(** ** The collector and the interactive answers *)
(* ================================================================== *)

Section Answers.

(** X5. commander collects the occurrences of [--schema-files] in the
    order of the command line, after what was collected before; starting
    from the empty default, the list is empty exactly when the flag was
    never given. *)
Theorem collected_in_order (values previous : list jsstring) :
  collected values previous = previous ++ values
  /\ length (collected values previous) = (length previous + length values)%nat
  /\ (collected values [] = [] <-> values = []).
Proof.
  assert (H : forall vs prev, collected vs prev = prev ++ vs).
  { induction vs as [|v vs IH]; intros prev; simpl.
    - rewrite app_nil_r. reflexivity.
    - unfold collected in *. simpl. rewrite IH. unfold collect.
      rewrite <- app_assoc. reflexivity. }
  conjuncts.
  - apply H.
  - rewrite H, length_app. reflexivity.
  - rewrite H. reflexivity.
Qed.

Lemma split_not_nil (sep : N) (s : jsstring) : split sep s <> [].
Proof.
  destruct s as [|c s]; simpl; [discriminate|].
  destruct (c =? sep)%N; [discriminate|].
  destruct (split sep s); discriminate.
Qed.

Lemma split_length (sep : N) (s : jsstring) :
  length (split sep s) = S (count_occ N.eq_dec s sep).
Proof.
  induction s as [|c s IH]; [reflexivity|]. simpl.
  destruct (N.eqb_spec c sep) as [-> | Hne].
  - simpl. rewrite IH. destruct (N.eq_dec sep sep); [reflexivity | congruence].
  - destruct (N.eq_dec c sep); [congruence|].
    pose proof (split_not_nil sep s) as Hnn.
    destruct (split sep s) as [|piece pieces]; [congruence|].
    simpl in *. exact IH.
Qed.

Lemma split_no_separator (sep : N) (s : jsstring) :
  Forall (fun piece => sep ∉ piece) (split sep s).
Proof.
  induction s as [|c s IH]; simpl.
  - constructor; [apply not_elem_of_nil | constructor].
  - destruct (N.eqb_spec c sep) as [-> | Hne].
    + constructor; [apply not_elem_of_nil | exact IH].
    + destruct (split sep s) as [|piece pieces].
      * constructor; [|constructor].
        rewrite list_elem_of_singleton. congruence.
      * apply Forall_cons in IH as [Hp Hps].
        constructor; [|exact Hps].
        rewrite not_elem_of_cons. split; [congruence | exact Hp].
Qed.

Lemma trimStart_within (s : jsstring) (c : N) : c ∈ trimStart s -> c ∈ s.
Proof.
  induction s as [|d s IH]; simpl; [auto|].
  destruct (is_white_space d); [|auto].
  intros H. apply list_elem_of_further, IH, H.
Qed.

Lemma trim_within (s : jsstring) (c : N) : c ∈ trim s -> c ∈ s.
Proof.
  unfold trim, trimEnd. intros H.
  apply list_elem_of_In, in_rev, list_elem_of_In, trimStart_within in H.
  apply list_elem_of_In, in_rev, list_elem_of_In, trimStart_within in H.
  exact H.
Qed.

Lemma last_rev (s : jsstring) : last (rev s) = head s.
Proof. rewrite rev_alt. apply last_reverse. Qed.

Lemma trimStart_snoc (s : jsstring) (c : N) :
  is_white_space c = false -> trimStart (s ++ [c]) = trimStart s ++ [c].
Proof.
  intros Hc. induction s as [|d s IH]; simpl.
  - rewrite Hc. reflexivity.
  - destruct (is_white_space d); [exact IH | reflexivity].
Qed.

Lemma trimEnd_cons (s : jsstring) (c : N) :
  is_white_space c = false -> trimEnd (c :: s) = c :: trimEnd s.
Proof.
  intros Hc. unfold trimEnd. simpl.
  rewrite trimStart_snoc by exact Hc. rewrite rev_app_distr. reflexivity.
Qed.

(** What [trim] gives neither starts nor ends with white space. *)
Lemma trim_ends (s : jsstring) (c : N) :
  head (trim s) = Some c \/ last (trim s) = Some c -> is_white_space c = false.
Proof.
  unfold trim. intros [H | H].
  - pose proof (trimStart_head s) as Hh.
    destruct (trimStart s) as [|d t]; [discriminate H|].
    rewrite trimEnd_cons in H by exact Hh. injection H as <-. exact Hh.
  - unfold trimEnd in H. rewrite last_rev in H.
    pose proof (trimStart_head (rev (trimStart s))) as Hh.
    destruct (trimStart (rev (trimStart s))) as [|d t]; [discriminate H|].
    injection H as <-. exact Hh.
Qed.

(** X6. In interactive mode [parseConfig] parses the arguments, prompts,
    and reads the schemas; it neither prints the help nor exits, and the
    flags play no part: the configuration is made of the answers.  The
    file names handed to [readSchemas] are the pieces of the answer
    between commas, trimmed: one more than there are commas (a blank
    answer gives one empty name), none holding a comma, none starting or
    ending with white space. *)
Theorem parseConfig_interactive (env : Collaborators) :
  nonInteractive (program env) = false ->
  trace (parseConfig env [])
  = [ProgramParse; InquirerPrompt (questions (PROJECT_ID env));
     ReadSchemas (answered_files (prompt env))]
  /\ outcome (parseConfig env [])
     = match readSchemas env (answered_files (prompt env)) with
       | inr loaded =>
           Returned {| projectId := a_project (prompt env);
                       bigQueryProjectId := a_bigQueryProject (prompt env);
                       datasetId := a_dataset (prompt env);
                       tableNamePrefix := a_tableNamePrefix (prompt env);
                       schemas := loaded |}
       | inl e => Thrown e
       end
  /\ length (answered_files (prompt env))
     = S (count_occ N.eq_dec (a_schemaFiles (prompt env)) 44%N)
  /\ Forall (fun file =>
               (44%N ∉ file)
               /\ (forall c, head file = Some c \/ last file = Some c ->
                             is_white_space c = false))
       (answered_files (prompt env)).
Proof.
  intros Hmode. unfold answered_files. conjuncts.
  - unfold parseConfig, call_readSchemas. rewrite Hmode. step_M.
    destruct (readSchemas env _); reflexivity.
  - unfold parseConfig, call_readSchemas. rewrite Hmode. step_M.
    destruct (readSchemas env _); reflexivity.
  - rewrite length_map. apply split_length.
  - apply Forall_forall. intros file Hfile.
    apply list_elem_of_In, in_map_iff in Hfile as (piece & <- & Hpiece).
    pose proof (split_no_separator 44%N (a_schemaFiles (prompt env))) as Hsep.
    rewrite Forall_forall in Hsep.
    split; [|apply trim_ends].
    intros Hin. apply trim_within in Hin.
    exact (Hsep piece (proj2 (list_elem_of_In _ _) Hpiece) Hin).
Qed.

End Answers.

(* ================================================================== *)
(** ** The order of events and the exit status *)
(* ================================================================== *)

Section Process.

Variable env : Collaborators.

Lemma env_assignments_app (t1 t2 : list Event) :
  env_assignments (t1 ++ t2) = env_assignments t1 ++ env_assignments t2.
Proof. apply omap_app. Qed.

Lemma logged_app (t1 t2 : list Event) :
  logged (t1 ++ t2) = logged t1 ++ logged t2.
Proof. apply omap_app. Qed.

Lemma initialized_apps_app (t1 t2 : list Event) :
  initialized_apps (t1 ++ t2) = (initialized_apps t1 + initialized_apps t2)%nat.
Proof.
  induction t1 as [|e t1 IH]; [reflexivity|].
  destruct e; simpl; rewrite IH; reflexivity.
Qed.

(** Events that are all factory calls carry nothing else. *)
Lemma factory_calls_only (t : list Event) :
  forallb is_factory_call t = true ->
  env_assignments t = [] /\ logged t = [] /\ initialized_apps t = O
  /\ constructed_factories t = [].
Proof.
  induction t as [|e t IH]; [auto|].
  simpl. intros H. apply andb_true_iff in H as [He Ht].
  destruct e; try discriminate. simpl. auto.
Qed.

Lemma parseConfig_exits (past : list Event) :
  nonInteractive (program env) && flags_missing (program env) = true ->
  parseConfig env past
  = {| trace := [ProgramParse; OutputHelp; ProcessExit (Some 1)];
       outcome := Exited 1 |}.
Proof.
  intros H. apply andb_true_iff in H as [Hmode Hmissing].
  unfold parseConfig. rewrite Hmode. unfold flags_missing in Hmissing.
  destruct (project (program env)), (bigQueryProject (program env)),
    (dataset (program env)), (tableNamePrefix_flag (program env)),
    (schemaFiles (program env)); try reflexivity.
  discriminate Hmissing.
Qed.

(** Otherwise [parseConfig] reads the schemas and returns or throws; its
    events are the parsing, the prompt if any, and the reading. *)
Lemma parseConfig_reads (past : list Event) :
  nonInteractive (program env) && flags_missing (program env) = false ->
  (exists config, outcome (parseConfig env past) = Returned config
   \/ exists e, outcome (parseConfig env past) = Thrown e)
  /\ env_assignments (trace (parseConfig env past)) = []
  /\ logged (trace (parseConfig env past)) = []
  /\ initialized_apps (trace (parseConfig env past)) = O.
Proof.
  intros H. unfold parseConfig, call_readSchemas.
  destruct (nonInteractive (program env)) eqn:Hmode.
  - simpl in H. unfold flags_missing in H.
    destruct (project (program env)), (bigQueryProject (program env)),
      (dataset (program env)), (tableNamePrefix_flag (program env)),
      (schemaFiles (program env)); try discriminate H.
    step_M. destruct (readSchemas env _) as [e | loaded]; simpl.
    + split; [exists (Fixture.config_of []); right; exists e; reflexivity|].
      auto.
    + split; [eexists; left; reflexivity|]. auto.
  - step_M. destruct (readSchemas env _) as [e | loaded]; simpl.
    + split; [exists (Fixture.config_of []); right; exists e; reflexivity|].
      auto.
    + split; [eexists; left; reflexivity|]. auto.
Qed.

Lemma parseConfig_silent (past : list Event) :
  env_assignments (trace (parseConfig env past)) = []
  /\ logged (trace (parseConfig env past)) = []
  /\ initialized_apps (trace (parseConfig env past)) = O.
Proof.
  destruct (nonInteractive (program env) && flags_missing (program env)) eqn:E.
  - rewrite (parseConfig_exits past E). auto.
  - apply (parseConfig_reads past E).
Qed.

(** When [parseConfig] does not return, [run] ends as it did. *)
Lemma run_without_config (past : list Event) :
  (forall config, outcome (parseConfig env past) <> Returned config) ->
  trace (run env past) = trace (parseConfig env past)
  /\ match outcome (parseConfig env past) with
     | Returned _ => False
     | Thrown e => outcome (run env past) = Thrown e
     | Exited status => outcome (run env past) = Exited status
     end.
Proof.
  intros H. unfold run, mbind, M_bind, bind. cbv zeta.
  destruct (outcome (parseConfig env past)) as [config | e | status] eqn:E.
  - exfalso. exact (H config eq_refl).
  - auto.
  - auto.
Qed.

(** The events of [run_config] in full. *)
Lemma run_config_trace (config : CliConfig) (past : list Event) :
  trace (run_config env config past)
  = preamble (firebase_apps env + initialized_apps past) config
    ++ trace (loop env config (Object_keys (schemas config))
                (past ++ preamble (firebase_apps env + initialized_apps past)
                           config))
  /\ outcome (run_config env config past)
     = match outcome (loop env config (Object_keys (schemas config))
                        (past ++ preamble
                                   (firebase_apps env + initialized_apps past)
                                   config)) with
       | Returned _ => Returned 0
       | Thrown e => Thrown e
       | Exited status => Exited status
       end.
Proof.
  unfold run_config.
  fold (loop env config (Object_keys (schemas config))).
  do 3 (erewrite bind_returned by reflexivity).
  rewrite !initialized_apps_app. simpl initialized_apps.
  rewrite !Nat.add_0_r. unfold preamble.
  destruct (firebase_apps env + initialized_apps past =? 0)%nat;
    destruct (length (Object_keys (schemas config)) =? 0)%nat;
    do 3 (erewrite bind_returned by reflexivity);
    rewrite bind_then_ret; cbn [trace outcome]; unfold emit, ret; cbn [trace];
    rewrite ?app_nil_r, <- ?app_assoc; cbn [app]; split; reflexivity.
Qed.

Lemma resolved_calls_only (config : CliConfig) (keys : list jsstring) :
  forallb is_factory_call (resolved config keys) = true.
Proof. induction keys as [|key keys IH]; [reflexivity | exact IH]. Qed.

Lemma loop_calls_only (config : CliConfig) (keys : list jsstring)
    (past : list Event) :
  forallb is_factory_call (trace (loop env config keys past)) = true
  /\ forall status, outcome (loop env config keys past) <> Exited status.
Proof.
  destruct (loop_shape env config keys past)
    as [[Ht Ho] | (before & k & after & e & _ & Ht & Ho)];
    rewrite Ht, Ho; (split; [|discriminate]).
  - apply resolved_calls_only.
  - rewrite forallb_app, resolved_calls_only. reflexivity.
Qed.

End Process.

Section ProcessProperties.

Variable env : Collaborators.

Lemma last_three {A} (l : list A) (a b c : A) : last (l ++ [a; b; c]) = Some c.
Proof.
  replace (l ++ [a; b; c]) with ((l ++ [a; b]) ++ [c])
    by (rewrite <- app_assoc; reflexivity).
  apply last_snoc.
Qed.

Lemma last_two {A} (l : list A) (a b : A) : last (l ++ [a; b]) = Some b.
Proof.
  replace (l ++ [a; b]) with ((l ++ [a]) ++ [b])
    by (rewrite <- app_assoc; reflexivity).
  apply last_snoc.
Qed.

Lemma no_app_initialized (t : list Event) (url : jsstring) :
  initialized_apps t = O -> InitializeApp url ∉ t.
Proof.
  induction t as [|e t IH]; intros H Hin; [inversion Hin|].
  apply elem_of_cons in Hin as [<- | Hin]; [discriminate H|].
  destruct e; simpl in H; try discriminate H; exact (IH H Hin).
Qed.

(** X7. How [main] ends, once commander has parsed the arguments into the
    options of [program].  When the flags of the non-interactive mode are
    incomplete, [process.exit(1)] is the last event and the status is 1.
    In every other case either [process.exit()] is the last event and the
    status is 0, whether the views were created or not, or [run] rejected
    with a value on which [JSON.stringify] or the reading of [message]
    throws, and then the handler's own error ends [main] and
    [process.exit()] is not called.  [main] never just returns. *)
Theorem main_exit_status :
  (nonInteractive (program env) && flags_missing (program env) = true ->
   outcome (main env []) = Exited 1
   /\ last (trace (main env [])) = Some (ProcessExit (Some 1)))
  /\ (nonInteractive (program env) && flags_missing (program env) = false ->
      (outcome (main env []) = Exited 0
       /\ last (trace (main env [])) = Some (ProcessExit None))
      \/ (exists e e',
            outcome (run env []) = Thrown e
            /\ (json e = Throws e' \/ message e = Throws e')
            /\ outcome (main env []) = Thrown e'))
  /\ (forall result, outcome (main env []) <> Returned result).
Proof.
  pose proof (main_after_run env) as Hmain.
  assert (Hthrown : forall e,
            outcome (run env []) = Thrown e ->
            (outcome (main env []) = Exited 0
             /\ last (trace (main env [])) = Some (ProcessExit None))
            \/ (exists e0 e',
                  outcome (run env []) = Thrown e0
                  /\ (json e0 = Throws e' \/ message e0 = Throws e')
                  /\ outcome (main env []) = Thrown e')).
  { intros e He. rewrite He in Hmain.
    destruct (json e) as [text | e'] eqn:Hj.
    - destruct (message e) as [its_message | e'] eqn:Hm;
        destruct Hmain as [Htrace Hout].
      + left. rewrite Htrace, Hout, last_three. auto.
      + right. exists e, e'. auto.
    - destruct Hmain as [Htrace Hout]. right. exists e, e'. auto. }
  conjuncts.
  - intros E. pose proof (parseConfig_exits env [] E) as Hexit.
    destruct (run_without_config env []) as [Ht Ho].
    { intros config. rewrite Hexit. discriminate. }
    rewrite Hexit in Ht, Ho. simpl in Ho. rewrite Ho in Hmain.
    destruct Hmain as [Htrace Hout]. rewrite Htrace, Hout, Ht. auto.
  - intros E.
    destruct (parseConfig_reads env [] E) as [(config & [Hc | (e & He)]) _].
    + destruct (run_after_parse env config [] Hc) as [_ Ho].
      destruct (run_config_trace env config ([] ++ trace (parseConfig env [])))
        as [_ Hrc].
      rewrite Hrc in Ho.
      destruct (loop_calls_only env config (Object_keys (schemas config))
                  (([] ++ trace (parseConfig env []))
                   ++ preamble (firebase_apps env
                                + initialized_apps
                                    ([] ++ trace (parseConfig env [])))
                        config)) as [_ Hnever].
      destruct (outcome (loop env config _ _)) as [[] | e | status] eqn:Hl.
      * rewrite Ho in Hmain. destruct Hmain as [Htrace Hout].
        left. rewrite Htrace, Hout, last_two. auto.
      * exact (Hthrown e Ho).
      * exfalso. exact (Hnever status eq_refl).
    + destruct (run_without_config env []) as [_ Ho].
      { intros config'. rewrite He. discriminate. }
      rewrite He in Ho. exact (Hthrown e Ho).
  - intros result Hret.
    destruct (outcome (run env [])) as [r | e | status].
    + destruct Hmain as [_ Hout]. congruence.
    + destruct (json e); [destruct (message e)|];
        destruct Hmain as [_ Hout]; congruence.
    + destruct Hmain as [_ Hout]. congruence.
Qed.

(** X8. Once the configuration is parsed, [run] first assigns
    [PROJECT_ID] and [GOOGLE_CLOUD_PROJECT], then initialises Firebase for
    [https://<projectId>.firebaseio.com] if and only if no app exists,
    then reports the zero-schema condition if there is no schema, then
    constructs the factory, and only then issues factory calls; these are
    the only assignments, and Firebase is initialised at most once. *)
Theorem run_event_order (config : CliConfig) :
  outcome (parseConfig env []) = Returned config ->
  exists calls,
    trace (run env [])
    = trace (parseConfig env []) ++ preamble (firebase_apps env) config ++ calls
    /\ forallb is_factory_call calls = true
    /\ env_assignments (trace (run env []))
       = [(lit "PROJECT_ID", projectId config);
          (lit "GOOGLE_CLOUD_PROJECT", bigQueryProjectId config)]
    /\ initialized_apps (trace (run env []))
       = (if (firebase_apps env =? 0)%nat then 1 else 0)%nat
    /\ (forall url,
          InitializeApp url ∈ trace (run env []) ->
          url = lit "https://" ++ projectId config ++ lit ".firebaseio.com").
Proof.
  intros Hparse.
  destruct (run_after_parse env config [] Hparse) as [Ht _].
  destruct (parseConfig_silent env []) as (Hp1 & Hp2 & Hp3).
  change ([] ++ trace (parseConfig env [])) with (trace (parseConfig env []))
    in Ht.
  destruct (run_config_trace env config (trace (parseConfig env [])))
    as [Hrc _].
  rewrite Hp3, Nat.add_0_r in Hrc.
  set (calls := trace (loop env config (Object_keys (schemas config)) _)) in Hrc.
  destruct (loop_calls_only env config (Object_keys (schemas config))
              (trace (parseConfig env []) ++ preamble (firebase_apps env) config))
    as [Hcalls _].
  fold calls in Hcalls.
  destruct (factory_calls_only calls Hcalls) as (Hc1 & _ & Hc3 & _).
  exists calls. rewrite Ht, Hrc.
  rewrite !env_assignments_app, !initialized_apps_app, Hp1, Hp3, Hc1, Hc3.
  conjuncts; auto.
  - unfold preamble.
    destruct (firebase_apps env =? 0)%nat,
      (length (Object_keys (schemas config)) =? 0)%nat; reflexivity.
  - unfold preamble.
    destruct (firebase_apps env =? 0)%nat,
      (length (Object_keys (schemas config)) =? 0)%nat; reflexivity.
  - intros url Hin.
    apply elem_of_app in Hin as [Hin | Hin];
      [exfalso; exact (no_app_initialized _ url Hp3 Hin)|].
    apply elem_of_app in Hin as [Hin | Hin];
      [|exfalso; exact (no_app_initialized _ url Hc3 Hin)].
    unfold preamble in Hin.
    destruct (firebase_apps env =? 0)%nat,
      (length (Object_keys (schemas config)) =? 0)%nat; simpl in Hin;
      repeat (apply elem_of_cons in Hin as [Hin | Hin]; try discriminate Hin);
      try (inversion Hin; fail).
    + injection Hin as ->. reflexivity.
    + injection Hin as ->. reflexivity.
Qed.

(** X9. What [console.log] receives.  [run] logs "No schema files found!"
    when the mapping is empty and nothing at all otherwise; [main] then
    logs "done." when [run] returned; when [run] rejected it logs what
    [JSON.stringify] gives for the error, and nothing when
    [JSON.stringify] throws. *)
Theorem console_output (config : CliConfig) :
  outcome (parseConfig env []) = Returned config ->
  logged (trace (run env []))
  = (if (length (schemas config) =? 0)%nat
     then [lit "No schema files found!"] else [])
  /\ (forall result,
        outcome (run env []) = Returned result ->
        logged (trace (main env [])) = logged (trace (run env [])) ++ [lit "done."])
  /\ (forall e,
        outcome (run env []) = Thrown e ->
        logged (trace (main env []))
        = logged (trace (run env []))
          ++ match json e with
             | Gives text => [format text]
             | Throws _ => []
             end).
Proof.
  intros Hparse. pose proof (main_after_run env) as Hmain. conjuncts.
  - destruct (run_after_parse env config [] Hparse) as [Ht _].
    destruct (parseConfig_silent env []) as (_ & Hp2 & Hp3).
    change ([] ++ trace (parseConfig env [])) with (trace (parseConfig env []))
      in Ht.
    destruct (run_config_trace env config (trace (parseConfig env [])))
      as [Hrc _].
    rewrite Hp3, Nat.add_0_r in Hrc.
    destruct (loop_calls_only env config (Object_keys (schemas config))
                (trace (parseConfig env []) ++ preamble (firebase_apps env) config))
      as [Hcalls _].
    destruct (factory_calls_only _ Hcalls) as (_ & Hc2 & _ & _).
    rewrite Ht, Hrc, !logged_app, Hp2, Hc2.
    unfold preamble, Object_keys. rewrite length_map.
    destruct (firebase_apps env =? 0)%nat,
      (length (schemas config) =? 0)%nat; reflexivity.
  - intros result Hok. rewrite Hok in Hmain. destruct Hmain as [Htrace _].
    rewrite Htrace, logged_app. reflexivity.
  - intros e Hrej. rewrite Hrej in Hmain.
    destruct (json e); [destruct (message e)|];
      destruct Hmain as [Htrace _]; rewrite Htrace, ?logged_app, ?app_nil_r;
      reflexivity.
Qed.

(** X10. When the configuration cannot be had because reading the schemas
    throws, nothing else is done: no environment variable is assigned,
    Firebase is not initialised, no factory is constructed and no call is
    issued.  [main] logs what [JSON.stringify] gives for the error, if it
    gives anything, and exits with status 0 when the error has a text and
    a readable [message]; otherwise the handler throws the error of the
    failing expression and the process is not exited. *)
Theorem unreadable_schemas (e : JsError) :
  outcome (parseConfig env []) = Thrown e ->
  trace (run env []) = trace (parseConfig env [])
  /\ outcome (run env []) = Thrown e
  /\ env_assignments (trace (main env [])) = []
  /\ initialized_apps (trace (main env [])) = O
  /\ constructed_factories (trace (main env [])) = []
  /\ issued_calls (trace (main env [])) = []
  /\ logged (trace (main env []))
     = match json e with
       | Gives text => [format text]
       | Throws _ => []
       end
  /\ outcome (main env [])
     = match json e, message e with
       | Gives _, Gives _ => Exited 0
       | Gives _, Throws e' => Thrown e'
       | Throws e', _ => Thrown e'
       end.
Proof.
  intros Hthrow.
  destruct (run_without_config env []) as [Ht Ho].
  { intros config. rewrite Hthrow. discriminate. }
  rewrite Hthrow in Ho.
  pose proof (main_after_run env) as Hmain. rewrite Ho in Hmain.
  destruct (parseConfig_silent env []) as (Hp1 & Hp2 & Hp3).
  destruct (parseConfig_quiet env []) as (Hq1 & _ & Hq3).
  destruct (json e); [destruct (message e)|];
    destruct Hmain as [Htrace Hout]; rewrite Htrace, Hout, Ht;
    rewrite ?env_assignments_app, ?initialized_apps_app,
      ?constructed_factories_app, ?issued_calls_app, ?logged_app,
      ?Hp1, ?Hp2, ?Hp3, ?Hq1, ?Hq3;
    conjuncts; auto.
Qed.

(** X11. Once the configuration is parsed, [run] never exits the process;
    it returns, and then 0, exactly when no factory call rejected, and
    when it returns every schema name of the mapping has been called, in
    enumeration order. *)
Theorem run_returns_iff (config : CliConfig) :
  outcome (parseConfig env []) = Returned config ->
  (outcome (run env []) = Returned 0 <-> rejections (trace (run env [])) = [])
  /\ (forall result,
        outcome (run env []) = Returned result ->
        result = 0
        /\ called_names (trace (run env [])) = Object_keys (schemas config))
  /\ (forall status, outcome (run env []) <> Exited status).
Proof.
  intros Hparse.
  destruct (run_observed env config Hparse) as [_ H].
  assert (Hnames : forall keys, map c_schemaName (map (call_of config) keys) = keys).
  { intros keys. rewrite map_map. simpl. apply map_id. }
  destruct H as [(Hc & Hnone & Ho) | (before & k & after & e & Hk & Hc & Hr & Ho)];
    rewrite Ho.
  - conjuncts; try discriminate.
    + split; auto.
    + intros result [= <-]. split; [reflexivity|].
      unfold called_names. rewrite Hc. apply Hnames.
  - rewrite Hr. conjuncts; try discriminate.
    split; discriminate.
Qed.

End ProcessProperties.

(* ------------------------------------------------------------------ *)
(** *** The further properties at the fixtures *)
(* ------------------------------------------------------------------ *)

Section FurtherFixtures.

Import Fixture Fixture2.

Lemma parseConfig_interactive_witness :
  nonInteractive (program interactive) = false
  /\ trace (parseConfig interactive [])
     = [ProgramParse; InquirerPrompt (questions (Str (lit "demo")));
        ReadSchemas [lit "schemas/users.json"; lit "schemas/posts.json"]]
  /\ outcome (parseConfig interactive []) = Returned two_schemas.
Proof.
  split; [reflexivity|].
  destruct (parseConfig_interactive interactive eq_refl) as (Ht & Ho & _).
  split; [exact Ht | exact Ho].
Defined.

Lemma run_event_order_witness :
  outcome (parseConfig app_exists []) = Returned two_schemas
  /\ initialized_apps (trace (run app_exists [])) = O
  /\ env_assignments (trace (run app_exists []))
     = [(lit "PROJECT_ID", lit "demo");
        (lit "GOOGLE_CLOUD_PROJECT", lit "demo-bq")].
Proof.
  split; [reflexivity|].
  destruct (run_event_order app_exists two_schemas eq_refl)
    as (calls & _ & _ & Henv & Happs & _).
  split; [exact Happs | exact Henv].
Defined.

Lemma console_output_witness :
  outcome (parseConfig no_schemas []) = Returned (config_of [])
  /\ logged (trace (run no_schemas [])) = [lit "No schema files found!"]
  /\ logged (trace (main no_schemas []))
     = logged (trace (run no_schemas [])) ++ [lit "done."].
Proof.
  split; [reflexivity|].
  destruct (console_output no_schemas (config_of []) eq_refl)
    as (Hrun & Hdone & _).
  split; [exact Hrun | exact (Hdone 0 eq_refl)].
Defined.

Lemma unreadable_schemas_witness :
  outcome (parseConfig unreadable []) = Thrown denied
  /\ constructed_factories (trace (main unreadable [])) = []
  /\ logged (trace (main unreadable [])) = [lit "{}"]
  /\ outcome (main unreadable []) = Exited 0
  /\ outcome (parseConfig unreadable_circular []) = Thrown circular
  /\ logged (trace (main unreadable_circular [])) = []
  /\ outcome (main unreadable_circular [])
     = Thrown (Error (lit "Converting circular structure to JSON")).
Proof.
  split; [reflexivity|].
  destruct (unreadable_schemas unreadable denied eq_refl)
    as (_ & _ & _ & _ & Hfactory & _ & Hlog & Hexit).
  split; [exact Hfactory|]. split; [exact Hlog|]. split; [exact Hexit|].
  split; [reflexivity|].
  destruct (unreadable_schemas unreadable_circular circular eq_refl)
    as (_ & _ & _ & _ & _ & _ & Hlog' & Hexit').
  split; [exact Hlog' | exact Hexit'].
Defined.

Lemma run_returns_iff_witness :
  outcome (parseConfig all_granted []) = Returned two_schemas
  /\ called_names (trace (run all_granted [])) = [lit "users"; lit "posts"]
  /\ (outcome (run users_denied []) = Returned 0
      <-> rejections (trace (run users_denied [])) = []).
Proof.
  split; [reflexivity|].
  split.
  - exact (proj2 (proj1 (proj2 (run_returns_iff all_granted two_schemas eq_refl))
                    0 eq_refl)).
  - exact (proj1 (run_returns_iff users_denied two_schemas eq_refl)).
Defined.

End FurtherFixtures.
